(** * Virtool client: the samples reducer and the segment reorder helper

    A shallow embedding of [client/src/js/samples/reducer.js] (the view-state
    reducer of the samples collection) and of the OTU schema editor
    ([reorder], [getItemStyle] and the handlers of the [Schema] component),
    with the lodash and Array primitives they call. *)

From stdpp Require Import gmap strings list fin_maps.
From Stdlib Require Import ZArith.

Local Open Scope Z_scope.
Local Open Scope nat_scope.

(** ** JavaScript values and objects *)

(** The scalar values that occur as identifiers and as fields of the records
    handled by the reducer. The reducer never inspects a field's value, so one
    level of scalars is enough; [VNull] is JavaScript's [null]. *)
Inductive value : Type :=
| VNull
| VBool (b : bool)
| VNum (n : Z)
| VStr (s : string).

#[global] Instance value_eq_dec : EqDecision value.
Proof. solve_decision. Defined.

(** A plain object used as a record: a finite map from property names to
    values. A property that is absent reads as [undefined], i.e. [None]. *)
Abbreviation Obj := (gmap string value).

(** Object spread [{ ...a, ...b }]: properties of [b] win over those of [a]. *)
Definition spread (a b : Obj) : Obj := b ∪ a.

(** Spreading [null] contributes no property. *)
Definition spreadNullable (a : option Obj) : Obj := default ∅ a.

(** ** lodash-es *)
Module Lodash.
Section Arrays.
Context {A : Type} `{EqDecision A}.

(** [baseDifference(array, values)]: the elements of [array], in order, that
    are not in [values]. *)
Definition difference (array values : list A) : list A :=
  filter (λ x, x ∉ values) array.

(** [baseUniq]: keeps the first occurrence of every element; [seen] is the
    list of elements already emitted. *)
Fixpoint uniqFrom (seen array : list A) : list A :=
  match array with
  | [] => []
  | x :: rest =>
      if decide (x ∈ seen) then uniqFrom seen rest
      else x :: uniqFrom (x :: seen) rest
  end.

Definition uniq (array : list A) : list A := uniqFrom [] array.

(** [xor(a, b)] ([baseXor] on two arrays): each array minus the other,
    flattened in argument order, then de-duplicated. *)
Definition xor (a b : list A) : list A :=
  uniq (difference a b ++ difference b a).

End Arrays.
End Lodash.

(** ** Array.prototype.splice *)
Module JsArray.
Section Splice.
Context {A : Type}.

(** The start index of [splice], made relative to the array: a negative index
    counts from the end, and the result is clamped to [0 .. len]. *)
Definition relativeStart (start : Z) (len : nat) : nat :=
  if (start <? 0)%Z then Z.to_nat (Z.max (Z.of_nat len + start) 0)
  else Z.to_nat (Z.min start (Z.of_nat len)).

(** [array.splice(start, deleteCount, ...items)]: returns the removed
    elements and the array after the call. *)
Definition splice (array : list A) (start deleteCount : Z) (items : list A)
  : list A * list A :=
  let k := relativeStart start (length array) in
  let d := Z.to_nat (Z.min (Z.max deleteCount 0) (Z.of_nat (length array - k))) in
  (take d (drop k array), take k array ++ items ++ drop (k + d) array).

End Splice.
End JsArray.

(** ** The samples slice of the store ([samples/reducer.js]) *)

(** The state object. The fields up to [selected] are those of
    [initialState]; [null] is [None]. The last three fields are the part of
    the Pagination Envelope that [initialState] does not list: they are read
    and written only by the helpers of [utils/reducers] (see [Reducers]). *)
Record State : Type := {
  documents : option (list Obj);
  term : string;
  page : nat;
  detail : option Obj;
  readFiles : option (list Obj);
  showEdit : bool;
  showRemove : bool;
  editError : bool;
  reservedFiles : list Obj;
  readyHosts : option (list Obj);
  selected : list value;
  totalDocumentCount : nat;
  totalPageCount : nat;
  pageSize : option nat
}.

Definition initialState : State := {|
  documents := None;
  term := "";
  page := 0;
  detail := None;
  readFiles := None;
  showEdit := false;
  showRemove := false;
  editError := false;
  reservedFiles := [];
  readyHosts := None;
  selected := [];
  totalDocumentCount := 0;
  totalPageCount := 0;
  pageSize := None
|}.

(** [{ ...state, field: v }] for the fields the reducer writes. *)
Definition set_documents (state : State) (v : option (list Obj)) : State :=
  {| documents := v; term := term state; page := page state;
     detail := detail state; readFiles := readFiles state;
     showEdit := showEdit state; showRemove := showRemove state;
     editError := editError state; reservedFiles := reservedFiles state;
     readyHosts := readyHosts state; selected := selected state;
     totalDocumentCount := totalDocumentCount state;
     totalPageCount := totalPageCount state; pageSize := pageSize state |}.

Definition set_term (state : State) (v : string) : State :=
  {| documents := documents state; term := v; page := page state;
     detail := detail state; readFiles := readFiles state;
     showEdit := showEdit state; showRemove := showRemove state;
     editError := editError state; reservedFiles := reservedFiles state;
     readyHosts := readyHosts state; selected := selected state;
     totalDocumentCount := totalDocumentCount state;
     totalPageCount := totalPageCount state; pageSize := pageSize state |}.

Definition set_detail (state : State) (v : option Obj) : State :=
  {| documents := documents state; term := term state; page := page state;
     detail := v; readFiles := readFiles state;
     showEdit := showEdit state; showRemove := showRemove state;
     editError := editError state; reservedFiles := reservedFiles state;
     readyHosts := readyHosts state; selected := selected state;
     totalDocumentCount := totalDocumentCount state;
     totalPageCount := totalPageCount state; pageSize := pageSize state |}.

Definition set_readFiles (state : State) (v : option (list Obj)) : State :=
  {| documents := documents state; term := term state; page := page state;
     detail := detail state; readFiles := v;
     showEdit := showEdit state; showRemove := showRemove state;
     editError := editError state; reservedFiles := reservedFiles state;
     readyHosts := readyHosts state; selected := selected state;
     totalDocumentCount := totalDocumentCount state;
     totalPageCount := totalPageCount state; pageSize := pageSize state |}.

Definition set_readyHosts (state : State) (v : option (list Obj)) : State :=
  {| documents := documents state; term := term state; page := page state;
     detail := detail state; readFiles := readFiles state;
     showEdit := showEdit state; showRemove := showRemove state;
     editError := editError state; reservedFiles := reservedFiles state;
     readyHosts := v; selected := selected state;
     totalDocumentCount := totalDocumentCount state;
     totalPageCount := totalPageCount state; pageSize := pageSize state |}.

Definition set_showRemove (state : State) (v : bool) : State :=
  {| documents := documents state; term := term state; page := page state;
     detail := detail state; readFiles := readFiles state;
     showEdit := showEdit state; showRemove := v;
     editError := editError state; reservedFiles := reservedFiles state;
     readyHosts := readyHosts state; selected := selected state;
     totalDocumentCount := totalDocumentCount state;
     totalPageCount := totalPageCount state; pageSize := pageSize state |}.

Definition set_selected (state : State) (v : list value) : State :=
  {| documents := documents state; term := term state; page := page state;
     detail := detail state; readFiles := readFiles state;
     showEdit := showEdit state; showRemove := showRemove state;
     editError := editError state; reservedFiles := reservedFiles state;
     readyHosts := readyHosts state; selected := v;
     totalDocumentCount := totalDocumentCount state;
     totalPageCount := totalPageCount state; pageSize := pageSize state |}.

Definition set_totalDocumentCount (state : State) (v : nat) : State :=
  {| documents := documents state; term := term state; page := page state;
     detail := detail state; readFiles := readFiles state;
     showEdit := showEdit state; showRemove := showRemove state;
     editError := editError state; reservedFiles := reservedFiles state;
     readyHosts := readyHosts state; selected := selected state;
     totalDocumentCount := v;
     totalPageCount := totalPageCount state; pageSize := pageSize state |}.

(** The identifier of a document: its [id] property. *)
Definition idOf (doc : Obj) : option value := doc !! "id".

(** The document sequence of a state; no page loaded yet reads as empty. *)
Definition store (state : State) : list Obj := default [] (documents state).

(** Modelled from the spec: the body of a query result event ([action.data]
    of FIND_SAMPLES.SUCCEEDED), which no source file constructs: one page of
    documents, the counts, and the echoed query parameters
    [{ page, totalDocumentCount, totalPageCount, documents, term }]. *)
Record QueryResult : Type := {
  data_page : nat;
  data_totalDocumentCount : nat;
  data_totalPageCount : nat;
  data_documents : list Obj;
  data_term : string
}.

(** ** utils/reducers

    [samples/reducer.js] imports [updateDocuments], [insert], [update] and
    [remove] from [utils/reducers], which is not among the sources. The
    helpers below follow the specification of the Push Merge Operator and of
    the Pagination Envelope; each takes the part of the action it reads. *)
Module Reducers.

(** Modelled from the spec: the order of two sort keys (the comparison used by
    the missing [insert] to place a document). Numbers compare as integers,
    strings lexicographically; any other pair is unordered. *)
Definition keyLt (a b : option value) : bool :=
  match a, b with
  | Some (VNum x), Some (VNum y) => (x <? y)%Z
  | Some (VStr x), Some (VStr y) => String.ltb x y
  | _, _ => false
  end.

(** Modelled from the spec: whether [doc] sorts strictly before [other] on
    [sortField], ascending or descending per [sortAscending] (part of the
    missing [insert]). *)
Definition sortsBefore (sortField : string) (sortAscending : bool)
    (doc other : Obj) : bool :=
  if sortAscending then keyLt (doc !! sortField) (other !! sortField)
  else keyLt (other !! sortField) (doc !! sortField).

(** Modelled from the spec: "insert payload into the sequence at the position
    determined by sortField" (part of the missing [insert]): in front of the
    first document that sorts after it, at the end otherwise. *)
Fixpoint insertSorted (sortField : string) (sortAscending : bool)
    (payload : Obj) (docs : list Obj) : list Obj :=
  match docs with
  | [] => [payload]
  | doc :: rest =>
      if sortsBefore sortField sortAscending payload doc
      then payload :: doc :: rest
      else doc :: insertSorted sortField sortAscending payload rest
  end.

(** Modelled from the spec: "if the store represents a bounded page and the
    insertion would overflow the page, evict the last element of the
    sequence" (part of the missing [insert]). *)
Definition evict (bound : option nat) (docs : list Obj) : list Obj :=
  match bound with
  | Some n => if decide (n < length docs) then removelast docs else docs
  | None => docs
  end.

(** Modelled from the spec: whether an identifier is present in the document
    sequence (the membership test of the missing [insert], [update] and
    [remove]). *)
Definition present (id : option value) (docs : list Obj) : bool :=
  bool_decide (id ∈ idOf <$> docs).

(** Modelled from the spec: the missing [update] of [utils/reducers]. "If
    documentId present, shallow-merge payload into the existing entry in
    place (preserving its position). If absent, no-op." The event's
    documentId is the identifier its payload carries. *)
Definition update (state : State) (payload : Obj) : State :=
  if present (idOf payload) (store state) then
    set_documents state
      (Some ((λ doc, if decide (idOf doc = idOf payload)
                     then spread doc payload else doc) <$> store state))
  else state.

(** Modelled from the spec: the missing [insert] of [utils/reducers]. "If
    documentId already present, treat as Update. Otherwise, insert payload
    into the sequence at the position determined by sortField; increment
    totalDocumentCount", evicting the last element of a bounded page that
    would overflow. *)
Definition insert (state : State) (payload : Obj) (sortField : string)
    (sortAscending : bool) : State :=
  if present (idOf payload) (store state) then update state payload
  else
    set_totalDocumentCount
      (set_documents state
         (Some (evict (pageSize state)
                  (insertSorted sortField sortAscending payload (store state)))))
      (S (totalDocumentCount state)).

(** Modelled from the spec: the list part of the missing [remove]. "If
    documentId present, delete it from the sequence and decrement
    totalDocumentCount (floor at 0). If absent, no-op." *)
Definition removeDocument (state : State) (documentId : value) : State :=
  if present (Some documentId) (store state) then
    set_totalDocumentCount
      (set_documents state
         (Some (filter (λ doc, idOf doc ≠ Some documentId) (store state))))
      (Nat.pred (totalDocumentCount state))
  else state.

(** Modelled from the spec: the detail part of the missing [remove]. "Events
    for the detail slot are matched by identifier against the currently open
    detail; a Remove event for the open detail clears it." *)
Definition removeDetail (state : State) (documentId : value) : State :=
  match detail state with
  | Some open =>
      if decide (idOf open = Some documentId) then set_detail state None
      else state
  | None => state
  end.

(** Modelled from the spec: the missing [remove] of [utils/reducers], applied
    to the document sequence and to the detail slot. *)
Definition remove (state : State) (documentId : value) : State :=
  removeDetail (removeDocument state documentId) documentId.

(** Modelled from the spec: whether a query result answers the query the
    Pagination Envelope currently holds (the staleness test of the missing
    [updateDocuments], "comparing the response's echoed query parameters
    against the then-current Pagination Envelope"). The envelope holds one
    requested parameter, the term: FIND_SAMPLES.REQUESTED stores
    [action.term] and nothing else, and [page] is the page of the last
    response, not a requested one. The test therefore compares the echoed
    term with the state's. *)
Definition answersCurrentQuery (state : State) (data : QueryResult) : bool :=
  bool_decide (data_term data = term state).

(** Modelled from the spec: the missing [updateDocuments] of
    [utils/reducers]. "On a full query success, replace documents, page,
    totalDocumentCount, totalPageCount, filterTerm atomically from the
    response"; a response that fails the staleness test is discarded. *)
Definition updateDocuments (state : State) (data : QueryResult) : State :=
  if answersCurrentQuery state data then
    {| documents := Some (data_documents data);
       term := data_term data;
       page := data_page data;
       detail := detail state; readFiles := readFiles state;
       showEdit := showEdit state; showRemove := showRemove state;
       editError := editError state; reservedFiles := reservedFiles state;
       readyHosts := readyHosts state; selected := selected state;
       totalDocumentCount := data_totalDocumentCount data;
       totalPageCount := data_totalPageCount data;
       pageSize := pageSize state |}
  else state.

End Reducers.

(** ** Actions *)

(** The three members of a request action type
    ([FIND_SAMPLES.REQUESTED], ...). *)
Inductive Phase : Type := REQUESTED | SUCCEEDED | FAILED.

(** The action types imported from [app/actionTypes]; [OTHER] stands for
    every action type of the application that the reducer does not import. *)
Inductive ActionType : Type :=
| WS_INSERT_SAMPLE
| WS_UPDATE_SAMPLE
| WS_REMOVE_SAMPLE
| FIND_SAMPLES (phase : Phase)
| GET_SAMPLE (phase : Phase)
| UPDATE_SAMPLE (phase : Phase)
| REMOVE_SAMPLE (phase : Phase)
| UPDATE_SAMPLE_RIGHTS (phase : Phase)
| SHOW_REMOVE_SAMPLE
| HIDE_SAMPLE_MODAL
| FIND_READ_FILES (phase : Phase)
| FIND_READY_HOSTS (phase : Phase)
| SELECT_SAMPLE
| CLEAR_SAMPLE_SELECTION
| OTHER (name : string).

#[global] Instance Phase_eq_dec : EqDecision Phase.
Proof. solve_decision. Defined.

#[global] Instance ActionType_eq_dec : EqDecision ActionType.
Proof. solve_decision. Defined.

(** A query request ([requestQuery(term, page)]): the action carries the
    requested term and page; the reducer reads [action.term] only. *)
Record QueryRequest : Type := { request_term : string; request_page : nat }.

(** What an action of each type carries besides its [type]: the properties
    the reducer (or the helper it calls) reads off the action. *)
Definition Payload (t : ActionType) : Type :=
  match t with
  | WS_INSERT_SAMPLE | WS_UPDATE_SAMPLE => Obj          (* the pushed document *)
  | WS_REMOVE_SAMPLE => value                            (* documentId *)
  | FIND_SAMPLES REQUESTED => QueryRequest              (* term, page *)
  | FIND_SAMPLES SUCCEEDED => QueryResult                (* data *)
  | FIND_READ_FILES SUCCEEDED => list Obj               (* data.documents *)
  | FIND_READY_HOSTS SUCCEEDED => list Obj              (* data.documents *)
  | GET_SAMPLE SUCCEEDED => Obj                          (* data *)
  | UPDATE_SAMPLE SUCCEEDED => Obj                       (* data *)
  | UPDATE_SAMPLE_RIGHTS SUCCEEDED => Obj                (* data *)
  | SELECT_SAMPLE => value                               (* sampleId *)
  | _ => unit
  end.

Record Action : Type := { type : ActionType; payload : Payload type }.

(** The [case] labels of [samplesReducer]. *)
Definition handledTypes : list ActionType :=
  [ WS_INSERT_SAMPLE; WS_UPDATE_SAMPLE; WS_REMOVE_SAMPLE;
    FIND_SAMPLES REQUESTED; FIND_SAMPLES SUCCEEDED;
    FIND_READ_FILES SUCCEEDED; FIND_READY_HOSTS SUCCEEDED;
    GET_SAMPLE REQUESTED; GET_SAMPLE SUCCEEDED;
    UPDATE_SAMPLE SUCCEEDED; UPDATE_SAMPLE_RIGHTS SUCCEEDED;
    REMOVE_SAMPLE SUCCEEDED;
    SHOW_REMOVE_SAMPLE; HIDE_SAMPLE_MODAL;
    SELECT_SAMPLE; CLEAR_SAMPLE_SELECTION ].

(** The types of the three push events (insert, update, remove). *)
Definition pushTypes : list ActionType :=
  [WS_INSERT_SAMPLE; WS_UPDATE_SAMPLE; WS_REMOVE_SAMPLE].

(** [samplesReducer(state, action)]: one arm per [case] of the [switch] on
    [action.type], in source order. The default argument
    [state = initialState] is [samplesReducerInitial] below. *)
Definition samplesReducer (state : State) (action : Action) : State :=
  match type action as t return Payload t → State with
  | WS_INSERT_SAMPLE => λ doc, Reducers.insert state doc "created_at" true
  | WS_UPDATE_SAMPLE => λ doc, Reducers.update state doc
  | WS_REMOVE_SAMPLE => λ documentId, Reducers.remove state documentId
  | FIND_SAMPLES REQUESTED => λ request, set_term state (request_term request)
  | FIND_SAMPLES SUCCEEDED => λ data, Reducers.updateDocuments state data
  | FIND_READ_FILES SUCCEEDED => λ docs, set_readFiles state (Some docs)
  | FIND_READY_HOSTS SUCCEEDED => λ docs, set_readyHosts state (Some docs)
  | GET_SAMPLE REQUESTED => λ _, set_detail state None
  | GET_SAMPLE SUCCEEDED => λ data, set_detail state (Some data)
  | UPDATE_SAMPLE SUCCEEDED => λ data,
      set_detail state (Some (spread (spreadNullable (detail state)) data))
  | UPDATE_SAMPLE_RIGHTS SUCCEEDED => λ data,
      set_detail state (Some (spread (spreadNullable (detail state)) data))
  | REMOVE_SAMPLE SUCCEEDED => λ _, set_detail state None
  | SHOW_REMOVE_SAMPLE => λ _, set_showRemove state true
  | HIDE_SAMPLE_MODAL => λ _, set_showRemove state false
  | SELECT_SAMPLE => λ sampleId,
      set_selected state (Lodash.xor (selected state) [sampleId])
  | CLEAR_SAMPLE_SELECTION => λ _, set_selected state []
  | _ => λ _, state
  end (payload action).

(** The call with [state] left [undefined], as when the store is created:
    the default argument [initialState] takes its place. *)
Definition samplesReducerInitial (state : option State) (action : Action)
  : State :=
  samplesReducer (default initialState state) action.

(** ** The segment list of the schema editor *)
Module Schema.
Section Reorder.
Context {A : Type}.

(** The value of a destructured element that is not there. *)
Variable undefined : A.

(** [const reorder = (list, startIndex, endIndex) => ...]: take the element
    at [startIndex] out of a copy of the list and put it back at
    [endIndex]. *)
Definition reorder (list : list A) (startIndex endIndex : Z)
  : Datatypes.list A :=
  let result := list in
  let '(removedItems, result) := JsArray.splice result startIndex 1 [] in
  let removed := default undefined (head removedItems) in
  let '(_, result) := JsArray.splice result endIndex 0 [removed] in
  result.

End Reorder.
End Schema.



(** The action types whose [case] hands the state to a helper imported from
    [utils/reducers]; every other [case] is decided in [reducer.js] itself. *)
Definition delegatedTypes : list ActionType :=
  [WS_INSERT_SAMPLE; WS_UPDATE_SAMPLE; WS_REMOVE_SAMPLE; FIND_SAMPLES SUCCEEDED].

(** The action types of the two selection cases. *)
Definition selectionTypes : list ActionType :=
  [SELECT_SAMPLE; CLEAR_SAMPLE_SELECTION].

(** [SELECT_SAMPLE] dispatched for each identifier of a list, in order. *)
Definition selectAll (state : State) (sampleIds : list value) : State :=
  foldl (λ s sampleId, samplesReducer s {| type := SELECT_SAMPLE; payload := sampleId |})
        state sampleIds.

(** The two partial-update successes that merge their payload into the
    detail: UPDATE_SAMPLE_RIGHTS.SUCCEEDED when [rights], UPDATE_SAMPLE.SUCCEEDED
    otherwise. *)
Definition updateSucceeded (rights : bool) (data : Obj) : Action :=
  if rights then {| type := UPDATE_SAMPLE_RIGHTS SUCCEEDED; payload := data |}
  else {| type := UPDATE_SAMPLE SUCCEEDED; payload := data |}.

(** ** The schema editor component (the [Schema] class) *)
Module SchemaEditor.

(** An element of the array [reorder] returns: a segment object, or the
    [undefined] that [reorder] inserts when it took nothing out. *)
Inductive Segment : Type :=
| Undefined
| Object (fields : Obj).

(** The props the handlers read. [schema] is [None] when the prop is
    [undefined] or [null]; [hasModifyOTU] and [isRemote] are read for their
    truthiness only; [detail_name] and [detail_abbreviation] are
    [props.detail.name] and [props.detail.abbreviation]. *)
Record Props : Type := {
  schema : option (list Obj);
  hasModifyOTU : bool;
  isRemote : bool;
  otuId : value;
  detail_name : value;
  detail_abbreviation : value
}.

(** [this.state] of a mounted component. Every element of [segArray] is an
    object: [render] has read the [name] of each. *)
Record ViewState : Type := {
  segArray : list Obj;
  showAdd : bool;
  showRemove : bool;
  showEdit : bool;
  selected : Obj
}.

(** One call [props.onSave(otuId, name, abbreviation, schema)]. *)
Record SaveCall : Type := {
  save_otuId : value;
  save_name : value;
  save_abbreviation : value;
  save_schema : list Obj
}.

(** The argument of [onDragEnd]: [result.source.index] and, when the item was
    dropped on the list, [result.destination.index]. *)
Record DropResult : Type := {
  source_index : Z;
  destination_index : option Z
}.

(** The argument of [handleSegment]: [entry.handler] and [entry.segment]. *)
Record Entry : Type := { handler : string; segment : Obj }.

Definition getInitialState (props : Props) : ViewState := {|
  segArray := match schema props with Some s => s | None => [] end;
  showAdd := false;
  showRemove := false;
  showEdit := false;
  selected := ∅
|}.

(** [getItemStyle(isDragging, draggableStyle)]; [draggableStyle] is [None]
    when it is [undefined] or [null]. *)
Definition getItemStyle (isDragging : bool) (draggableStyle : option Obj) : Obj :=
  spread {[ "userSelect" := VStr "none"; "margin" := VStr "0 0 10px 0" ]}
         (spreadNullable draggableStyle).

(** [render] maps over [segArray] and reads [segment.name] of every element
    (the [key] of its [Draggable]); on [undefined] that read throws a
    TypeError. [segmentObject] is the read: the object, or [None] for the
    exception. *)
Definition segmentObject (segment : Segment) : option Obj :=
  match segment with
  | Object fields => Some fields
  | Undefined => None
  end.

(** [this.setState({segArray: newArray})] with the re-render it triggers at
    once: the array the component holds afterwards, or [None] when [render]
    throws. *)
Definition setSegArray (newArray : list Segment) : option (list Obj) :=
  mapM segmentObject newArray.

(** The call [props.onSave(props.otuId, props.detail.name,
    props.detail.abbreviation, newArray)]. *)
Definition onSave (props : Props) (newArray : list Obj) : SaveCall := {|
  save_otuId := otuId props;
  save_name := detail_name props;
  save_abbreviation := detail_abbreviation props;
  save_schema := newArray
|}.

(** Every handler maps the props and the state to the state after its
    [setState] calls and the [onSave] calls it made, in order.

    [onDragEnd] can end in an exception, [None]: when [reorder] has inserted
    [undefined], the re-render of [setState] throws, and the statement after
    it, the call of [onSave], is not reached. *)
Definition onDragEnd (props : Props) (state : ViewState) (result : DropResult)
  : option (ViewState * list SaveCall) :=
  if negb (hasModifyOTU props) || isRemote props then Some (state, [])
  else
    match destination_index result with
    | Some destination =>
        let newArray :=
          Schema.reorder Undefined (Object <$> segArray state)
                         (source_index result) destination in
        match setSegArray newArray with
        | Some newArray =>
            Some ({| segArray := newArray; showAdd := showAdd state;
                     showRemove := showRemove state; showEdit := showEdit state;
                     selected := selected state |},
                  [onSave props newArray])
        | None => None
        end
    | None => Some (state, [])
    end.

Definition handleAddNew (props : Props) (state : ViewState)
  : ViewState * list SaveCall :=
  ({| segArray := segArray state; showAdd := true;
      showRemove := showRemove state; showEdit := showEdit state;
      selected := selected state |}, []).

Definition handleSubmit (props : Props) (state : ViewState)
    (newArray : list Obj) : ViewState * list SaveCall :=
  ({| segArray := newArray; showAdd := false; showRemove := false;
      showEdit := false; selected := selected state |},
   [onSave props newArray]).

Definition handleClose (props : Props) (state : ViewState)
  : ViewState * list SaveCall :=
  ({| segArray := segArray state; showAdd := false; showRemove := false;
      showEdit := false; selected := selected state |}, []).

Definition handleSegment (props : Props) (state : ViewState) (entry : Entry)
  : ViewState * list SaveCall :=
  let state :=
    if decide (handler entry = "remove") then
      {| segArray := segArray state; showAdd := showAdd state;
         showRemove := true; showEdit := showEdit state;
         selected := segment entry |}
    else state in
  let state :=
    if decide (handler entry = "edit") then
      {| segArray := segArray state; showAdd := showAdd state;
         showRemove := showRemove state; showEdit := true;
         selected := segment entry |}
    else state in
  (state, []).

(** The callbacks the rendered tree wires to the handlers: [onDragEnd] of the
    drag-and-drop context, [onClick] of the add button and of a segment,
    [onSubmit] and [onHide] of the three modals. *)
Inductive Event : Type :=
| DragEnd (result : DropResult)
| AddNew
| Submit (newArray : list Obj)
| Close
| SegmentClick (entry : Entry).

Definition handle (props : Props) (state : ViewState) (event : Event)
  : option (ViewState * list SaveCall) :=
  match event with
  | DragEnd result => onDragEnd props state result
  | AddNew => Some (handleAddNew props state)
  | Submit newArray => Some (handleSubmit props state newArray)
  | Close => Some (handleClose props state)
  | SegmentClick entry => Some (handleSegment props state entry)
  end.

(** A sequence of callbacks, handled one after the other; the [onSave] calls
    are collected in the order they were made. An exception ends the run:
    the component is gone. *)
Fixpoint run (props : Props) (state : ViewState) (events : list Event)
  : option (ViewState * list SaveCall) :=
  match events with
  | [] => Some (state, [])
  | event :: rest =>
      match handle props state event with
      | Some (state', saves) =>
          match run props state' rest with
          | Some (final, saves') => Some (final, saves ++ saves')
          | None => None
          end
      | None => None
      end
  end.

End SchemaEditor.

(** * Properties *)

(** Membership of an action type in a literal list of types. *)
Ltac type_listed := apply list_elem_of_In; simpl; tauto.
Ltac type_not_listed H :=
  apply list_elem_of_In in H; simpl in H;
  repeat (destruct H as [H|H]; [discriminate H|]);
  lazymatch type of H with False => destruct H end.

(** ** lodash-es *)
Section LodashFacts.
Context {A : Type} `{EqDecision A}.
Implicit Types (a b : list A) (x : A).

Lemma elem_of_difference_list a b x :
  x ∈ Lodash.difference a b ↔ x ∈ a ∧ x ∉ b.
Proof. unfold Lodash.difference. rewrite list_elem_of_filter. tauto. Qed.

Lemma elem_of_uniqFrom seen a x :
  x ∈ Lodash.uniqFrom seen a ↔ x ∈ a ∧ x ∉ seen.
Proof.
  revert seen. induction a as [|y a IH]; intros seen; simpl.
  - rewrite elem_of_nil. tauto.
  - destruct (decide (y ∈ seen)) as [Hy|Hy].
    + rewrite IH, elem_of_cons. split; [tauto|].
      intros [[->|Hx] Hn]; [contradiction|tauto].
    + rewrite !elem_of_cons, IH, not_elem_of_cons.
      destruct (decide (x = y)) as [->|Hne]; tauto.
Qed.

Lemma NoDup_uniqFrom seen a : NoDup (Lodash.uniqFrom seen a).
Proof.
  revert seen. induction a as [|y a IH]; intros seen; simpl.
  - constructor.
  - destruct (decide (y ∈ seen)); [apply IH|].
    constructor; [|apply IH].
    rewrite elem_of_uniqFrom, not_elem_of_cons. tauto.
Qed.

Lemma elem_of_uniq a x : x ∈ Lodash.uniq a ↔ x ∈ a.
Proof.
  unfold Lodash.uniq. rewrite elem_of_uniqFrom, elem_of_nil. tauto.
Qed.

Lemma elem_of_xor a b x :
  x ∈ Lodash.xor a b ↔ (x ∈ a ∧ x ∉ b) ∨ (x ∈ b ∧ x ∉ a).
Proof.
  unfold Lodash.xor.
  by rewrite elem_of_uniq, elem_of_app, !elem_of_difference_list.
Qed.

Lemma NoDup_xor a b : NoDup (Lodash.xor a b).
Proof. apply NoDup_uniqFrom. Qed.

End LodashFacts.

(** ** The samples reducer: selection, detail slot and query request *)

(** The reducer writes one field at a time: the setters commute with every
    projection they do not write. *)
Lemma selected_set_selected state v : selected (set_selected state v) = v.
Proof. reflexivity. Qed.

Lemma detail_set_detail state v : detail (set_detail state v) = v.
Proof. reflexivity. Qed.

(** Membership in [xor(selected, [sampleId])]. *)
Lemma elem_of_xor_singleton (sel : list value) (sampleId x : value) :
  x ∈ Lodash.xor sel [sampleId] ↔
  (x ∈ sel ∧ x ≠ sampleId) ∨ (x = sampleId ∧ sampleId ∉ sel).
Proof.
  rewrite elem_of_xor, list_elem_of_singleton.
  split; intros [[? ?]|[? ?]]; subst; auto.
Qed.

Lemma elem_of_xor_singleton_twice (sel : list value) (sampleId x : value) :
  x ∈ Lodash.xor (Lodash.xor sel [sampleId]) [sampleId] ↔ x ∈ sel.
Proof.
  rewrite !elem_of_xor_singleton.
  destruct (decide (x = sampleId)) as [->|Hne]; [|tauto].
  destruct (decide (sampleId ∈ sel)); tauto.
Qed.

(** C3. Dispatching SELECT_SAMPLE for [sampleId] replaces the selection by
    its symmetric difference with the singleton [sampleId] (an identifier
    other than [sampleId] is selected afterwards exactly when it was before;
    [sampleId] itself is selected afterwards exactly when it was not before),
    and dispatching it twice gives back the original selection as a set. *)
Theorem select_sample_toggles state sampleId :
  let toggle s := samplesReducer s {| type := SELECT_SAMPLE; payload := sampleId |} in
  (∀ x, x ∈ selected (toggle state) ↔
        (x ∈ selected state ∧ x ≠ sampleId) ∨
        (x = sampleId ∧ sampleId ∉ selected state)) ∧
  (sampleId ∈ selected state → sampleId ∉ selected (toggle state)) ∧
  (sampleId ∉ selected state → sampleId ∈ selected (toggle state)) ∧
  (∀ x, x ∈ selected (toggle (toggle state)) ↔ x ∈ selected state).
Proof.
  simpl.
  split; [apply elem_of_xor_singleton|].
  split; [rewrite elem_of_xor_singleton; tauto|].
  split; [rewrite elem_of_xor_singleton; tauto|].
  apply elem_of_xor_singleton_twice.
Qed.

(** On a selection without duplicates (every selection the reducer builds
    from the empty one), two toggles give back the same identifiers, each
    once; only their order in the array may differ. *)
Lemma select_sample_twice_Permutation state sampleId :
  let toggle s := samplesReducer s {| type := SELECT_SAMPLE; payload := sampleId |} in
  NoDup (selected state) →
  selected (toggle (toggle state)) ≡ₚ selected state.
Proof.
  simpl. intros Hnd. apply NoDup_Permutation; [apply NoDup_xor|exact Hnd|].
  apply elem_of_xor_singleton_twice.
Qed.

(** The order can differ: toggling the first of two selected identifiers
    twice moves it to the end. *)
Example select_sample_twice_order :
  let toggle s := samplesReducer s {| type := SELECT_SAMPLE; payload := VNum 1 |} in
  selected (toggle (toggle (set_selected initialState [VNum 1; VNum 2])))
  = [VNum 2; VNum 1].
Proof. reflexivity. Qed.

(** Toggling keeps the selection free of duplicates. *)
Lemma select_sample_NoDup state sampleId :
  NoDup (selected (samplesReducer state
                     {| type := SELECT_SAMPLE; payload := sampleId |})).
Proof. apply NoDup_xor. Qed.

(** The scenario of the specification: [toggle(5)] gives [{5}], a second
    [toggle(5)] gives [{}]. *)
Example select_sample_scenario :
  let toggle id s := samplesReducer s {| type := SELECT_SAMPLE; payload := VNum id |} in
  selected (toggle 5%Z initialState) = [VNum 5] ∧
  selected (toggle 5%Z (toggle 5%Z initialState)) = [] ∧
  selected (samplesReducer (toggle 7%Z (toggle 5%Z initialState))
              {| type := CLEAR_SAMPLE_SELECTION; payload := () |}) = [].
Proof. repeat split; reflexivity. Qed.

(** C5 (as the code has it). REMOVE_SAMPLE.SUCCEEDED sets the detail slot to
    [null] and changes no other field; [null] is also what
    GET_SAMPLE.REQUESTED writes, so the two outcomes are the same state. *)
Theorem remove_succeeded_detail_null state :
  let removed := samplesReducer state {| type := REMOVE_SAMPLE SUCCEEDED; payload := () |} in
  let loading := samplesReducer state {| type := GET_SAMPLE REQUESTED; payload := () |} in
  detail removed = None ∧ removed = set_detail state None ∧ removed = loading.
Proof. repeat split. Qed.

(** C5, counterexample: with a record open in the detail slot, the slot after
    REMOVE_SAMPLE.SUCCEEDED is not distinct from the slot after
    GET_SAMPLE.REQUESTED. *)
Lemma remove_succeeded_not_distinct_from_loading :
  let state := set_detail initialState (Some {[ "id" := VNum 9; "name" := VStr "x" ]}) in
  ¬ (detail (samplesReducer state {| type := REMOVE_SAMPLE SUCCEEDED; payload := () |})
     ≠ detail (samplesReducer state {| type := GET_SAMPLE REQUESTED; payload := () |})).
Proof. intros state Hne. apply Hne. reflexivity. Qed.

(** C7 (as the code has it). FIND_SAMPLES.REQUESTED writes the requested term
    and nothing else: the page and every other field, among them the
    documents, the detail slot and the selection, keep their values. *)
Theorem find_requested_updates_term_only state request :
  let state' := samplesReducer state {| type := FIND_SAMPLES REQUESTED; payload := request |} in
  term state' = request_term request ∧
  page state' = page state ∧
  documents state' = documents state ∧
  detail state' = detail state ∧
  selected state' = selected state ∧
  readFiles state' = readFiles state ∧
  showEdit state' = showEdit state ∧
  showRemove state' = showRemove state ∧
  editError state' = editError state ∧
  reservedFiles state' = reservedFiles state ∧
  readyHosts state' = readyHosts state ∧
  totalDocumentCount state' = totalDocumentCount state ∧
  totalPageCount state' = totalPageCount state ∧
  pageSize state' = pageSize state.
Proof. repeat split. Qed.

(** C7, counterexample: a request for page 2 of the term "abc" leaves the
    page field at its old value 0; the page field is not updated. *)
Lemma find_requested_page_not_updated :
  let request := {| request_term := "abc"; request_page := 2 |} in
  let state' := samplesReducer initialState {| type := FIND_SAMPLES REQUESTED; payload := request |} in
  term state' = "abc" ∧ page state' = 0 ∧ page state' ≠ request_page request.
Proof. repeat split. discriminate. Qed.

(** C8. With a record open in the detail slot, UPDATE_SAMPLE.SUCCEEDED and
    UPDATE_SAMPLE_RIGHTS.SUCCEEDED merge the payload into it: the new detail
    is a record in which every property of the payload has the payload's
    value and every other property has the value it had in the old detail. *)
Theorem update_succeeded_shallow_merge state old data state' :
  detail state = Some old →
  state' = samplesReducer state {| type := UPDATE_SAMPLE SUCCEEDED; payload := data |} ∨
  state' = samplesReducer state {| type := UPDATE_SAMPLE_RIGHTS SUCCEEDED; payload := data |} →
  ∃ merged,
    detail state' = Some merged ∧
    (∀ k v, data !! k = Some v → merged !! k = Some v) ∧
    (∀ k, data !! k = None → merged !! k = old !! k).
Proof.
  intros Hold Hstate'. exists (spread old data).
  split.
  - destruct Hstate' as [-> | ->]; simpl; by rewrite Hold.
  - unfold spread. split.
    + intros k v Hk. by apply lookup_union_Some_l.
    + intros k Hk. by apply lookup_union_r.
Qed.

(** C8, an instance: a rights change merged into an open sample keeps the
    name and replaces the rights flag. *)
Lemma update_succeeded_shallow_merge_witness :
  ∃ merged,
    detail (samplesReducer
              (set_detail initialState
                 (Some {[ "id" := VStr "abc"; "name" := VStr "x"; "all_read" := VBool false ]}))
              {| type := UPDATE_SAMPLE_RIGHTS SUCCEEDED;
                 payload := {[ "all_read" := VBool true ]} |}) = Some merged ∧
    (∀ k v, ({[ "all_read" := VBool true ]} : Obj) !! k = Some v → merged !! k = Some v) ∧
    (∀ k, ({[ "all_read" := VBool true ]} : Obj) !! k = None →
          merged !! k =
          ({[ "id" := VStr "abc"; "name" := VStr "x"; "all_read" := VBool false ]} : Obj) !! k).
Proof.
  apply (update_succeeded_shallow_merge
           (set_detail initialState
              (Some {[ "id" := VStr "abc"; "name" := VStr "x"; "all_read" := VBool false ]}))
           {[ "id" := VStr "abc"; "name" := VStr "x"; "all_read" := VBool false ]}
           {[ "all_read" := VBool true ]}).
  - reflexivity.
  - right. reflexivity.
Defined.

(** The merge on concrete records. *)
Example update_succeeded_merge_example :
  detail (samplesReducer
            (set_detail initialState
               (Some {[ "id" := VStr "abc"; "name" := VStr "x"; "all_read" := VBool false ]}))
            {| type := UPDATE_SAMPLE_RIGHTS SUCCEEDED;
               payload := {[ "all_read" := VBool true ]} |})
  = Some {[ "id" := VStr "abc"; "name" := VStr "x"; "all_read" := VBool true ]}.
Proof. reflexivity. Qed.

(** C9. An action whose type is not one of the [case] labels falls through to
    [default]: the reducer returns the state it was given. *)
Theorem unhandled_action_identity state action :
  type action ∉ handledTypes → samplesReducer state action = state.
Proof.
  destruct action as [t p]; simpl. intros Hnot.
  destruct t as [ | | |[]|[]|[]|[]|[]| | |[]|[]| | |name]; try reflexivity;
    exfalso; apply Hnot; type_listed.
Qed.

Lemma unhandled_action_identity_witness :
  samplesReducer initialState {| type := FIND_SAMPLES FAILED; payload := () |}
  = initialState.
Proof.
  apply (unhandled_action_identity initialState
           {| type := FIND_SAMPLES FAILED; payload := () |}).
  simpl. intros Hin. type_not_listed Hin.
Defined.

(** ** The samples reducer: query results *)


Lemma removeDocument_detail state documentId :
  detail (Reducers.removeDocument state documentId) = detail state.
Proof.
  unfold Reducers.removeDocument.
  by destruct (Reducers.present (Some documentId) (store state)).
Qed.





(** The requested page leaves no trace in the state: two requests that differ
    in the page only give the same state. *)
Lemma requested_page_not_recorded state requested page1 page2 :
  samplesReducer state
    {| type := FIND_SAMPLES REQUESTED;
       payload := {| request_term := requested; request_page := page1 |} |}
  = samplesReducer state
      {| type := FIND_SAMPLES REQUESTED;
         payload := {| request_term := requested; request_page := page2 |} |}.
Proof. reflexivity. Qed.

(** Hence no function of the state and the response, whatever
    [updateDocuments] is, can accept the answer to the latest request and
    discard the same answer when a request for another page of the same term
    has been made since. *)
Lemma stale_page_not_detectable (helper : State → QueryResult → State)
    state requested page1 page2 data :
  let request page :=
    {| type := FIND_SAMPLES REQUESTED;
       payload := {| request_term := requested; request_page := page |} |} in
  helper (samplesReducer state (request page1)) data
    ≠ samplesReducer state (request page1) →
  helper (samplesReducer state (request page2)) data
    ≠ samplesReducer state (request page2).
Proof. intros request Haccepted. exact Haccepted. Qed.


(** A response that echoes the requested term replaces the page, whatever
    page it echoes. *)
Lemma matching_response_replaces state data :
  data_term data = term state →
  let state' := samplesReducer state {| type := FIND_SAMPLES SUCCEEDED; payload := data |} in
  documents state' = Some (data_documents data) ∧
  page state' = data_page data ∧
  totalDocumentCount state' = data_totalDocumentCount data ∧
  totalPageCount state' = data_totalPageCount data.
Proof.
  intros Ht. cbv zeta.
  change (samplesReducer state _) with (Reducers.updateDocuments state data).
  unfold Reducers.updateDocuments, Reducers.answersCurrentQuery.
  rewrite bool_decide_eq_true_2 by done. done.
Qed.

(** C6. FIND_SAMPLES.SUCCEEDED never touches the selection: whatever the
    response holds, the selected identifiers are the same before and after,
    whether or not their documents are in the new page. *)
Theorem find_succeeded_keeps_selection state data :
  selected (samplesReducer state {| type := FIND_SAMPLES SUCCEEDED; payload := data |})
  = selected state.
Proof.
  change (samplesReducer state _) with (Reducers.updateDocuments state data).
  unfold Reducers.updateDocuments.
  destruct (Reducers.answersCurrentQuery state data); reflexivity.
Qed.

(** A selected identifier whose document is not in the new page stays
    selected. *)
Example find_succeeded_keeps_selection_example :
  let state := set_selected (set_documents initialState (Some [ {[ "id" := VNum 5 ]} ])) [VNum 5] in
  let data := {| data_page := 0; data_totalDocumentCount := 1; data_totalPageCount := 1;
                 data_documents := [ {[ "id" := VNum 6 ]} ]; data_term := "" |} in
  let state' := samplesReducer state {| type := FIND_SAMPLES SUCCEEDED; payload := data |} in
  documents state' = Some [ {[ "id" := VNum 6 ]} ] ∧ selected state' = [VNum 5].
Proof. split; reflexivity. Qed.

(** ** The samples reducer: push events *)

Section PushMerge.
Implicit Types (state : State) (docs : list Obj) (doc payload : Obj).

Lemma present_spec id docs :
  Reducers.present id docs = true ↔ id ∈ idOf <$> docs.
Proof. unfold Reducers.present. apply bool_decide_eq_true. Qed.

(** Merging a payload into the entry that carries the payload's identifier
    does not change that entry's identifier. *)
Lemma idOf_spread_same doc payload :
  idOf doc = idOf payload → idOf (spread doc payload) = idOf doc.
Proof.
  unfold idOf, spread. intros Hid.
  destruct (payload !! "id") as [v|] eqn:Hp.
  - rewrite Hid. by apply lookup_union_Some_l.
  - by rewrite lookup_union_r.
Qed.

Lemma update_ids state payload :
  idOf <$> store (Reducers.update state payload) = idOf <$> store state.
Proof.
  unfold Reducers.update.
  destruct (Reducers.present (idOf payload) (store state)); [|reflexivity].
  unfold store at 1. simpl. rewrite <- list_fmap_compose.
  apply list_fmap_ext. intros i doc _. simpl.
  destruct (decide (idOf doc = idOf payload)); [|reflexivity].
  by apply idOf_spread_same.
Qed.

Lemma insertSorted_Permutation sortField sortAscending payload docs :
  Reducers.insertSorted sortField sortAscending payload docs ≡ₚ payload :: docs.
Proof.
  induction docs as [|doc rest IH]; simpl; [reflexivity|].
  destruct (Reducers.sortsBefore sortField sortAscending payload doc);
    [reflexivity|].
  rewrite IH. apply Permutation_swap.
Qed.

Lemma evict_sublist bound docs : Reducers.evict bound docs `sublist_of` docs.
Proof.
  unfold Reducers.evict. destruct bound as [n|]; [|reflexivity].
  destruct (decide (n < length docs)); [|reflexivity].
  rewrite removelast_firstn_len. apply sublist_take.
Qed.

Lemma insert_NoDup state payload sortField sortAscending :
  NoDup (idOf <$> store state) →
  NoDup (idOf <$> store (Reducers.insert state payload sortField sortAscending)).
Proof.
  intros Hnd. unfold Reducers.insert.
  destruct (Reducers.present (idOf payload) (store state)) eqn:Hpresent.
  - by rewrite update_ids.
  - unfold store at 1. simpl.
    eapply sublist_NoDup; [|apply fmap_sublist, evict_sublist].
    rewrite insertSorted_Permutation. simpl. constructor; [|done].
    intros Hin. apply present_spec in Hin. congruence.
Qed.

Lemma removeDetail_store state documentId :
  store (Reducers.removeDetail state documentId) = store state.
Proof.
  unfold Reducers.removeDetail. destruct (detail state) as [open|]; [|done].
  by destruct (decide (idOf open = Some documentId)).
Qed.

Lemma remove_NoDup state documentId :
  NoDup (idOf <$> store state) →
  NoDup (idOf <$> store (Reducers.remove state documentId)).
Proof.
  intros Hnd. unfold Reducers.remove. rewrite removeDetail_store.
  unfold Reducers.removeDocument.
  destruct (Reducers.present (Some documentId) (store state)); [|done].
  unfold store at 1. simpl.
  eapply sublist_NoDup; [exact Hnd|]. apply fmap_sublist, sublist_filter.
Qed.

(** A removed identifier is gone from the sequence. *)
Lemma remove_not_present state documentId :
  Some documentId ∉ idOf <$> store (Reducers.remove state documentId).
Proof.
  unfold Reducers.remove. rewrite removeDetail_store.
  unfold Reducers.removeDocument.
  destruct (Reducers.present (Some documentId) (store state)) eqn:Hp.
  - unfold store at 1. simpl. rewrite list_elem_of_fmap.
    intros (doc & Hid & Hin). apply list_elem_of_filter in Hin.
    destruct Hin as [Hne _]. by apply Hne.
  - intros Hin. apply present_spec in Hin. congruence.
Qed.

Lemma push_step_NoDup state action :
  type action ∈ pushTypes →
  NoDup (idOf <$> store state) →
  NoDup (idOf <$> store (samplesReducer state action)).
Proof.
  destruct action as [t p]. simpl. intros Ht Hnd.
  destruct t; try (exfalso; type_not_listed Ht).
  - by apply insert_NoDup.
  - change (NoDup (idOf <$> store (Reducers.update state p))).
    by rewrite update_ids.
  - by apply remove_NoDup.
Qed.

(** C2. Starting from a state with no documents, any finite sequence of
    WS_INSERT_SAMPLE, WS_UPDATE_SAMPLE and WS_REMOVE_SAMPLE actions leaves a
    document sequence in which no identifier occurs twice. *)
Theorem push_events_no_duplicate_ids state actions :
  store state = [] →
  Forall (λ action, type action ∈ pushTypes) actions →
  NoDup (idOf <$> store (foldl samplesReducer state actions)).
Proof.
  intros Hempty Hpush.
  assert (Hnd : NoDup (idOf <$> store state)) by (rewrite Hempty; constructor).
  clear Hempty. revert state Hnd.
  induction Hpush as [|action actions Ht _ IH]; intros state Hnd; simpl.
  - exact Hnd.
  - apply IH. by apply push_step_NoDup.
Qed.

End PushMerge.

Lemma push_events_no_duplicate_ids_witness :
  let doc id created : Obj := {[ "id" := VNum id; "created_at" := VNum created ]} in
  NoDup (idOf <$> store (foldl samplesReducer initialState
    [ {| type := WS_INSERT_SAMPLE; payload := doc 1%Z 10%Z |};
      {| type := WS_INSERT_SAMPLE; payload := doc 2%Z 20%Z |};
      {| type := WS_INSERT_SAMPLE; payload := doc 1%Z 30%Z |};
      {| type := WS_UPDATE_SAMPLE; payload := doc 2%Z 40%Z |};
      {| type := WS_REMOVE_SAMPLE; payload := VNum 1 |};
      {| type := WS_INSERT_SAMPLE; payload := doc 1%Z 50%Z |} ])).
Proof.
  intros doc. apply push_events_no_duplicate_ids.
  - reflexivity.
  - repeat (constructor; [type_listed|]). constructor.
Defined.

(** The fold on concrete events: a second insert of identifier 1 is merged
    into the entry already there, and the sequence stays sorted on
    [created_at] only at insertion. *)
Example push_events_example :
  let doc id created : Obj := {[ "id" := VNum id; "created_at" := VNum created ]} in
  store (foldl samplesReducer initialState
    [ {| type := WS_INSERT_SAMPLE; payload := doc 1%Z 10%Z |};
      {| type := WS_INSERT_SAMPLE; payload := doc 2%Z 20%Z |};
      {| type := WS_INSERT_SAMPLE; payload := doc 1%Z 30%Z |};
      {| type := WS_REMOVE_SAMPLE; payload := VNum 2 |} ])
  = [ doc 1%Z 30%Z ].
Proof. reflexivity. Qed.

(** Two scenarios of the specification. Update of identifier 2 in
    [[{id:1,v:1},{id:2,v:1}]] merges in place and keeps the count; insert of
    identifier 3, ascending on [id], appends and increments the count. *)
Example update_scenario :
  let doc id v : Obj := {[ "id" := VNum id; "v" := VNum v ]} in
  let state := set_totalDocumentCount
                 (set_documents initialState (Some [doc 1%Z 1%Z; doc 2%Z 1%Z])) 2 in
  let state' := samplesReducer state {| type := WS_UPDATE_SAMPLE; payload := doc 2%Z 2%Z |} in
  documents state' = Some [doc 1%Z 1%Z; doc 2%Z 2%Z] ∧ totalDocumentCount state' = 2.
Proof. split; reflexivity. Qed.

Example insert_scenario :
  let doc id : Obj := {[ "id" := VNum id ]} in
  let state := set_totalDocumentCount
                 (set_documents initialState (Some [doc 1%Z; doc 2%Z])) 2 in
  let state' := Reducers.insert state (doc 3%Z) "id" true in
  documents state' = Some [doc 1%Z; doc 2%Z; doc 3%Z] ∧ totalDocumentCount state' = 3.
Proof. split; reflexivity. Qed.

(** ** The samples reducer: the detail slot under push events *)

(** C4. With a document of identifier [documentId] open in the detail slot,
    a WS_REMOVE_SAMPLE action for [documentId] sets the slot to [null]; the
    error flag of the state is not touched. *)
Theorem ws_remove_clears_open_detail state open documentId :
  detail state = Some open →
  idOf open = Some documentId →
  let state' := samplesReducer state {| type := WS_REMOVE_SAMPLE; payload := documentId |} in
  detail state' = None ∧ editError state' = editError state.
Proof.
  intros Hopen Hid state'. subst state'.
  change (samplesReducer state _) with (Reducers.remove state documentId).
  unfold Reducers.remove, Reducers.removeDetail.
  rewrite removeDocument_detail, Hopen.
  rewrite decide_True by done. simpl. split; [reflexivity|].
  unfold Reducers.removeDocument.
  by destruct (Reducers.present (Some documentId) (store state)).
Qed.

(** C4, the scenario of the specification: detail = [{id: 9, name: "x"}],
    remove event for 9. *)
Lemma ws_remove_clears_open_detail_witness :
  let state := set_detail initialState (Some {[ "id" := VNum 9; "name" := VStr "x" ]}) in
  let state' := samplesReducer state {| type := WS_REMOVE_SAMPLE; payload := VNum 9 |} in
  detail state' = None ∧ editError state' = editError state.
Proof.
  intros state.
  apply (ws_remove_clears_open_detail state {[ "id" := VNum 9; "name" := VStr "x" ]} (VNum 9)).
  - reflexivity.
  - reflexivity.
Defined.

(** ** Array.prototype.splice and the segment reorder *)

Section SpliceFacts.
Context {A : Type}.
Implicit Types (l : list A) (x : A).

Lemma relativeStart_within (i len : nat) :
  i ≤ len → JsArray.relativeStart (Z.of_nat i) len = i.
Proof.
  intros Hi. unfold JsArray.relativeStart.
  destruct (Z.ltb_spec (Z.of_nat i) 0) as [Hneg|_]; [lia|].
  rewrite Z.min_l by lia. apply Nat2Z.id.
Qed.

(** [l.splice(i, 1)] at an index that holds [x] removes exactly [x]. *)
Lemma splice_remove_one l (i : nat) x :
  l !! i = Some x →
  JsArray.splice l (Z.of_nat i) 1 [] = ([x], delete i l).
Proof.
  intros Hx. pose proof (lookup_lt_Some _ _ _ Hx) as Hlt.
  unfold JsArray.splice. rewrite relativeStart_within by lia.
  replace (Z.to_nat (Z.min (Z.max 1 0) (Z.of_nat (length l - i)))) with 1 by lia.
  f_equal.
  - by rewrite (drop_S _ _ _ Hx).
  - simpl. rewrite delete_take_drop. do 2 f_equal. lia.
Qed.

(** [l.splice(i, 0, x)] at an index within [0 .. length] inserts [x] there and
    removes nothing. *)
Lemma splice_insert_one l (i : nat) x :
  i ≤ length l →
  JsArray.splice l (Z.of_nat i) 0 [x] = ([], take i l ++ x :: drop i l).
Proof.
  intros Hi. unfold JsArray.splice. rewrite relativeStart_within by lia.
  replace (Z.to_nat (Z.min (Z.max 0 0) (Z.of_nat (length l - i)))) with 0 by lia.
  simpl. by rewrite Nat.add_0_r.
Qed.

End SpliceFacts.

Section ReorderFacts.
Context {A : Type} (undefined : A).
Implicit Types (l : list A) (x : A).

(** On valid indices [reorder] is: delete at the start index, insert at the
    end index. *)
Lemma reorder_valid l (startIndex endIndex : nat) x :
  l !! startIndex = Some x →
  endIndex < length l →
  Schema.reorder undefined l (Z.of_nat startIndex) (Z.of_nat endIndex)
  = take endIndex (delete startIndex l) ++ x :: drop endIndex (delete startIndex l).
Proof.
  intros Hx He. pose proof (lookup_lt_Some _ _ _ Hx) as Hs.
  unfold Schema.reorder.
  rewrite (splice_remove_one _ _ _ Hx). cbn [head default].
  rewrite splice_insert_one; [reflexivity|].
  rewrite length_delete by eauto. lia.
Qed.

(** C10. For indices within the list, [reorder] returns a list of the same
    length that is a permutation of the input, holds at [endIndex] the
    element that was at [startIndex], and, once that element is taken out,
    is the input with its element at [startIndex] taken out: the other
    elements keep their relative order. *)
Theorem reorder_moves_one_element l (startIndex endIndex : Z) :
  (0 ≤ startIndex < Z.of_nat (length l))%Z →
  (0 ≤ endIndex < Z.of_nat (length l))%Z →
  let result := Schema.reorder undefined l startIndex endIndex in
  length result = length l ∧
  result ≡ₚ l ∧
  result !! Z.to_nat endIndex = l !! Z.to_nat startIndex ∧
  delete (Z.to_nat endIndex) result = delete (Z.to_nat startIndex) l.
Proof.
  intros Hs He result. subst result.
  rewrite <- (Z2Nat.id startIndex), <- (Z2Nat.id endIndex) by lia.
  rewrite !Nat2Z.id.
  set (s := Z.to_nat startIndex). set (e := Z.to_nat endIndex).
  assert (Hslt : s < length l) by lia.
  assert (Helt : e < length l) by lia.
  destruct (lookup_lt_is_Some_2 l s Hslt) as [x Hx].
  rewrite (reorder_valid l s e x Hx Helt).
  set (rest := delete s l).
  assert (Hrest : length rest = length l - 1)
    by (apply length_delete; eauto).
  assert (Htake : length (take e rest) = e)
    by (apply length_take_le; lia).
  repeat split.
  - rewrite length_app, Htake. simpl. rewrite length_drop. lia.
  - rewrite <- Permutation_middle, take_drop. subst rest.
    symmetry. by apply delete_Permutation.
  - rewrite Hx. by apply list_lookup_middle.
  - rewrite <- Htake at 1. rewrite delete_middle. apply take_drop.
Qed.

End ReorderFacts.

Lemma reorder_moves_one_element_witness :
  let l := ["a"; "b"; "c"; "d"]%string in
  let result := Schema.reorder ""%string l 0 2 in
  length result = length l ∧
  result ≡ₚ l ∧
  result !! Z.to_nat 2 = l !! Z.to_nat 0 ∧
  delete (Z.to_nat 2) result = delete (Z.to_nat 0) l.
Proof.
  intros l.
  apply (reorder_moves_one_element ""%string l 0 2); simpl; lia.
Defined.

(** Moving the first of four segments to the third place. *)
Example reorder_example :
  Schema.reorder ""%string ["a"; "b"; "c"; "d"]%string 0 2
  = ["b"; "c"; "a"; "d"]%string.
Proof. reflexivity. Qed.

(** Outside the list the first [splice] removes nothing, and the [undefined]
    of the destructuring is what the second [splice] inserts. *)
Example reorder_out_of_range :
  Schema.reorder "undefined"%string ["a"; "b"]%string 5 0
  = ["undefined"; "a"; "b"]%string.
Proof. reflexivity. Qed.

(** ** The samples reducer: further properties of the cases decided in
    [reducer.js] *)

Section ReducerCases.
Implicit Types (state : State) (action : Action) (x sampleId : value).

(** What each case decided in [reducer.js] does to the selection. *)
Lemma selected_step state action :
  type action ∉ delegatedTypes →
  selected (samplesReducer state action) = selected state ∨
  (∃ sampleId, selected (samplesReducer state action)
               = Lodash.xor (selected state) [sampleId]) ∨
  selected (samplesReducer state action) = [].
Proof.
  destruct action as [t p]; simpl. intros Hnot.
  destruct t as [ | | |[]|[]|[]|[]|[]| | |[]|[]| | |name];
    try (left; reflexivity);
    try (exfalso; apply Hnot; type_listed).
  - right. left. by exists p.
  - right. right. reflexivity.
Qed.

Lemma bool_decide_xor_singleton (sel : list value) sampleId x :
  bool_decide (x ∈ Lodash.xor sel [sampleId])
  = xorb (bool_decide (x ∈ sel)) (bool_decide (sampleId = x)).
Proof.
  pose proof (elem_of_xor_singleton sel sampleId x) as Hmem.
  destruct (decide (sampleId = x)) as [->|Hne].
  - rewrite (bool_decide_eq_true_2 (x = x)) by done.
    repeat case_bool_decide; simpl; try reflexivity; exfalso; tauto.
  - rewrite (bool_decide_eq_false_2 (sampleId = x)) by done.
    assert (x ≠ sampleId) by congruence.
    repeat case_bool_decide; simpl; try reflexivity; exfalso; tauto.
Qed.

(** X1. After SELECT_SAMPLE has been dispatched for each identifier of a
    list, an identifier is selected exactly when its membership in the
    original selection and the parity of its number of occurrences in the
    list disagree: an odd number of toggles flips it, an even number does
    not. *)
Theorem selectAll_parity state sampleIds x :
  bool_decide (x ∈ selected (selectAll state sampleIds))
  = xorb (bool_decide (x ∈ selected state))
         (Nat.odd (length (filter (λ y, y = x) sampleIds))).
Proof.
  unfold selectAll. revert state.
  induction sampleIds as [|sampleId rest IH]; intros state; simpl.
  - by rewrite xorb_false_r.
  - rewrite IH. clear IH.
    change (selected (samplesReducer state _))
      with (Lodash.xor (selected state) [sampleId]).
    rewrite bool_decide_xor_singleton.
    destruct (decide (sampleId = x)) as [->|Hne].
    + rewrite (bool_decide_eq_true_2 (x = x)) by done.
      rewrite filter_cons_True by done. simpl length.
      rewrite Nat.odd_succ, <- Nat.negb_odd.
      destruct (bool_decide (x ∈ selected state)),
        (Nat.odd (length (filter (λ y, y = x) rest))); reflexivity.
    + rewrite (bool_decide_eq_false_2 (sampleId = x)) by done.
      rewrite filter_cons_False by done. by rewrite xorb_false_r.
Qed.

(** X2. A selection without duplicates stays without duplicates under every
    sequence of actions whose cases are decided in [reducer.js]. *)
Theorem selection_stays_duplicate_free state actions :
  NoDup (selected state) →
  Forall (λ action, type action ∉ delegatedTypes) actions →
  NoDup (selected (foldl samplesReducer state actions)).
Proof.
  intros Hnd Hall. revert state Hnd.
  induction Hall as [|action actions Ht _ IH]; intros state Hnd; simpl.
  - exact Hnd.
  - apply IH.
    destruct (selected_step state action Ht) as [->|[[sampleId ->]| ->]].
    + exact Hnd.
    + apply NoDup_xor.
    + constructor.
Qed.

(** X3. No case decided in [reducer.js] writes the document sequence, the
    page, [showEdit], [editError] or [reservedFiles]. *)
Theorem unwritten_fields state action :
  type action ∉ delegatedTypes →
  let state' := samplesReducer state action in
  documents state' = documents state ∧
  page state' = page state ∧
  showEdit state' = showEdit state ∧
  editError state' = editError state ∧
  reservedFiles state' = reservedFiles state.
Proof.
  destruct action as [t p]; simpl. intros Hnot.
  destruct t as [ | | |[]|[]|[]|[]|[]| | |[]|[]| | |name];
    try (repeat split; reflexivity);
    exfalso; apply Hnot; type_listed.
Qed.

(** X4. Among the cases decided in [reducer.js], only SELECT_SAMPLE and
    CLEAR_SAMPLE_SELECTION change the selection: opening, updating or
    removing the detail, loading files or hosts, a new query request and the
    modal flags leave it as it is. *)
Theorem selection_written_by_selection_cases_only state action :
  type action ∉ delegatedTypes →
  type action ∉ selectionTypes →
  selected (samplesReducer state action) = selected state.
Proof.
  destruct action as [t p]; simpl. intros Hnot Hsel.
  destruct t as [ | | |[]|[]|[]|[]|[]| | |[]|[]| | |name];
    try reflexivity;
    try (exfalso; apply Hnot; type_listed);
    exfalso; apply Hsel; type_listed.
Qed.

(** X5. With no record open ([detail] is [null]), UPDATE_SAMPLE.SUCCEEDED and
    UPDATE_SAMPLE_RIGHTS.SUCCEEDED do not stay at [null]: the detail becomes
    the payload itself. *)
Theorem update_succeeded_on_null_detail state data state' :
  detail state = None →
  state' = samplesReducer state {| type := UPDATE_SAMPLE SUCCEEDED; payload := data |} ∨
  state' = samplesReducer state {| type := UPDATE_SAMPLE_RIGHTS SUCCEEDED; payload := data |} →
  detail state' = Some data.
Proof.
  intros Hnull [-> | ->]; simpl; rewrite Hnull; simpl;
    unfold spread; by rewrite (right_id_L ∅ (∪)).
Qed.

End ReducerCases.

Lemma selection_stays_duplicate_free_witness :
  NoDup (selected (foldl samplesReducer initialState
    [ {| type := SELECT_SAMPLE; payload := VStr "a" |};
      {| type := GET_SAMPLE REQUESTED; payload := () |};
      {| type := SELECT_SAMPLE; payload := VStr "b" |};
      {| type := SELECT_SAMPLE; payload := VStr "a" |};
      {| type := SHOW_REMOVE_SAMPLE; payload := () |} ])).
Proof.
  apply selection_stays_duplicate_free.
  - constructor.
  - repeat (constructor; [intros Hin; type_not_listed Hin|]). constructor.
Defined.

Lemma unwritten_fields_witness :
  let state := set_documents initialState (Some [ {[ "id" := VStr "a" ]} ]) in
  let state' := samplesReducer state {| type := HIDE_SAMPLE_MODAL; payload := () |} in
  documents state' = documents state ∧
  page state' = page state ∧
  showEdit state' = showEdit state ∧
  editError state' = editError state ∧
  reservedFiles state' = reservedFiles state.
Proof.
  intros state.
  apply (unwritten_fields state {| type := HIDE_SAMPLE_MODAL; payload := () |}).
  simpl. intros Hin. type_not_listed Hin.
Defined.

Lemma selection_written_by_selection_cases_only_witness :
  selected (samplesReducer (set_selected initialState [VStr "a"])
              {| type := REMOVE_SAMPLE SUCCEEDED; payload := () |})
  = [VStr "a"].
Proof.
  apply (selection_written_by_selection_cases_only
           (set_selected initialState [VStr "a"])
           {| type := REMOVE_SAMPLE SUCCEEDED; payload := () |});
    simpl; intros Hin; type_not_listed Hin.
Defined.

Lemma update_succeeded_on_null_detail_witness :
  detail (samplesReducer initialState
            {| type := UPDATE_SAMPLE SUCCEEDED; payload := {[ "name" := VStr "x" ]} |})
  = Some {[ "name" := VStr "x" ]}.
Proof.
  apply (update_succeeded_on_null_detail initialState {[ "name" := VStr "x" ]}).
  - reflexivity.
  - left. reflexivity.
Defined.

Section ReducerComposition.
Implicit Types (state : State) (sampleId : value) (sel : list value).

(** X6. Two partial-update successes in a row (of either kind) leave the same
    state as one of them carrying the two payloads merged, the later payload
    winning; the detail may be open or [null]. *)
Theorem update_succeeded_composes state rights1 rights2 rights data1 data2 :
  samplesReducer (samplesReducer state (updateSucceeded rights1 data1))
                 (updateSucceeded rights2 data2)
  = samplesReducer state (updateSucceeded rights (spread data1 data2)).
Proof.
  assert (Hone : ∀ r s d,
             samplesReducer s (updateSucceeded r d)
             = set_detail s (Some (spread (spreadNullable (detail s)) d)))
    by (intros [] s d; reflexivity).
  rewrite !Hone. unfold set_detail, spread; simpl.
  by rewrite (assoc_L (∪)).
Qed.

(** X7. Called with [state] left [undefined] and an action of a type that has
    no [case], the reducer returns [initialState]: the default argument takes
    the place of the state and the [default] branch returns it. *)
Theorem initial_call_returns_initialState action :
  type action ∉ handledTypes →
  samplesReducerInitial None action = initialState.
Proof.
  unfold samplesReducerInitial. destruct action as [t p]; simpl. intros Hnot.
  destruct t as [ | | |[]|[]|[]|[]|[]| | |[]|[]| | |name]; try reflexivity;
    exfalso; apply Hnot; type_listed.
Qed.

(** X8. Showing the remove dialog and hiding it again restores the state
    exactly, when the dialog was not shown before. *)
Theorem show_then_hide_restores state :
  showRemove state = false →
  samplesReducer
    (samplesReducer state {| type := SHOW_REMOVE_SAMPLE; payload := () |})
    {| type := HIDE_SAMPLE_MODAL; payload := () |}
  = state.
Proof. destruct state. simpl. by intros ->. Qed.

(** [uniq] leaves alone an array without duplicates. *)
Lemma uniqFrom_NoDup (seen a : list value) :
  NoDup a → (∀ x, x ∈ a → x ∉ seen) → Lodash.uniqFrom seen a = a.
Proof.
  intros Hnd. revert seen.
  induction Hnd as [|y a Hy Hnd IH]; intros seen Hfresh; simpl; [done|].
  rewrite decide_False by (apply Hfresh; left).
  f_equal. apply IH. intros x Hx. rewrite not_elem_of_cons. split.
  - intros ->. contradiction.
  - apply Hfresh. by right.
Qed.

Lemma difference_absent sel sampleId :
  sampleId ∉ sel → Lodash.difference sel [sampleId] = sel.
Proof.
  intros Hnot. unfold Lodash.difference.
  induction sel as [|y sel IH]; [done|].
  apply not_elem_of_cons in Hnot as [Hne Hnot].
  rewrite filter_cons_True by (rewrite list_elem_of_singleton; congruence).
  by rewrite IH.
Qed.

Lemma filter_ne_absent sel sampleId :
  sampleId ∉ sel → filter (λ x, x ≠ sampleId) sel = sel.
Proof.
  intros Hnot. induction sel as [|y sel IH]; [done|].
  apply not_elem_of_cons in Hnot as [Hne Hnot].
  rewrite filter_cons_True by congruence. by rewrite IH.
Qed.

(** [xor(sel, [sampleId])] on an array without duplicates. *)
Lemma xor_singleton_absent sel sampleId :
  NoDup sel → sampleId ∉ sel → Lodash.xor sel [sampleId] = sel ++ [sampleId].
Proof.
  intros Hnd Hnot.
  unfold Lodash.xor, Lodash.uniq. rewrite difference_absent by done.
  unfold Lodash.difference at 1.
  rewrite filter_cons_True by done. rewrite filter_nil.
  apply uniqFrom_NoDup; [|intros x _; apply not_elem_of_nil].
  apply NoDup_app. split; [done|]. split; [|apply NoDup_singleton].
  intros x Hx Hx'. apply list_elem_of_singleton in Hx'. by subst.
Qed.

Lemma xor_singleton_present sel sampleId :
  NoDup sel → sampleId ∈ sel →
  Lodash.xor sel [sampleId] = filter (λ x, x ≠ sampleId) sel.
Proof.
  intros Hnd Hin.
  unfold Lodash.xor, Lodash.uniq.
  unfold Lodash.difference at 2.
  rewrite filter_cons_False by tauto. rewrite filter_nil, app_nil_r.
  assert (Hfilter : Lodash.difference sel [sampleId]
                    = filter (λ x, x ≠ sampleId) sel).
  { unfold Lodash.difference. apply list_filter_iff. intros x.
    by rewrite list_elem_of_singleton. }
  rewrite Hfilter.
  apply uniqFrom_NoDup; [|intros x _; apply not_elem_of_nil].
  by apply NoDup_filter.
Qed.

(** X9. Selecting a sample that is not selected appends its identifier to
    the selection array; the identifiers already there keep their places. *)
Theorem select_unselected_appends state sampleId :
  NoDup (selected state) →
  sampleId ∉ selected state →
  selected (samplesReducer state {| type := SELECT_SAMPLE; payload := sampleId |})
  = selected state ++ [sampleId].
Proof. intros Hnd Hnot. by apply xor_singleton_absent. Qed.

(** X10. Selecting a sample that is selected takes its identifier out of the
    selection array; the other identifiers keep their order. *)
Theorem select_selected_removes state sampleId :
  NoDup (selected state) →
  sampleId ∈ selected state →
  selected (samplesReducer state {| type := SELECT_SAMPLE; payload := sampleId |})
  = filter (λ x, x ≠ sampleId) (selected state).
Proof. intros Hnd Hin. by apply xor_singleton_present. Qed.

(** X11. Selecting a sample that is not selected and selecting it again
    restores the selection array exactly, order included. *)
Theorem select_then_deselect_restores state sampleId :
  NoDup (selected state) →
  sampleId ∉ selected state →
  let toggle s := samplesReducer s {| type := SELECT_SAMPLE; payload := sampleId |} in
  selected (toggle (toggle state)) = selected state.
Proof.
  intros Hnd Hnot toggle. subst toggle.
  change (Lodash.xor (Lodash.xor (selected state) [sampleId]) [sampleId]
          = selected state).
  rewrite (xor_singleton_absent _ _ Hnd Hnot).
  rewrite xor_singleton_present.
  - rewrite filter_app, filter_cons_False by tauto.
    rewrite filter_nil, app_nil_r.
    by apply filter_ne_absent.
  - rewrite <- (xor_singleton_absent _ _ Hnd Hnot). apply NoDup_xor.
  - apply elem_of_app. right. by apply list_elem_of_singleton.
Qed.

End ReducerComposition.

Lemma initial_call_returns_initialState_witness :
  samplesReducerInitial None {| type := OTHER "@@redux/INIT"; payload := () |}
  = initialState.
Proof.
  apply (initial_call_returns_initialState
           {| type := OTHER "@@redux/INIT"; payload := () |}).
  simpl. intros Hin. type_not_listed Hin.
Defined.

Lemma show_then_hide_restores_witness :
  samplesReducer
    (samplesReducer initialState {| type := SHOW_REMOVE_SAMPLE; payload := () |})
    {| type := HIDE_SAMPLE_MODAL; payload := () |}
  = initialState.
Proof. apply (show_then_hide_restores initialState). reflexivity. Defined.

Lemma select_unselected_appends_witness :
  selected (samplesReducer (set_selected initialState [VStr "a"; VStr "b"])
              {| type := SELECT_SAMPLE; payload := VStr "c" |})
  = [VStr "a"; VStr "b"] ++ [VStr "c"].
Proof.
  apply (select_unselected_appends
           (set_selected initialState [VStr "a"; VStr "b"]) (VStr "c")).
  - apply NoDup_ListNoDup. simpl. repeat constructor; simpl; intuition discriminate.
  - intros Hin. apply list_elem_of_In in Hin. simpl in Hin. intuition discriminate.
Defined.

Lemma select_selected_removes_witness :
  selected (samplesReducer (set_selected initialState [VStr "a"; VStr "b"])
              {| type := SELECT_SAMPLE; payload := VStr "a" |})
  = filter (λ x, x ≠ VStr "a") [VStr "a"; VStr "b"].
Proof.
  apply (select_selected_removes
           (set_selected initialState [VStr "a"; VStr "b"]) (VStr "a")).
  - apply NoDup_ListNoDup. simpl. repeat constructor; simpl; intuition discriminate.
  - apply list_elem_of_In. simpl. tauto.
Defined.

Lemma select_then_deselect_restores_witness :
  let toggle s := samplesReducer s {| type := SELECT_SAMPLE; payload := VStr "c" |} in
  selected (toggle (toggle (set_selected initialState [VStr "a"; VStr "b"])))
  = [VStr "a"; VStr "b"].
Proof.
  apply (select_then_deselect_restores
           (set_selected initialState [VStr "a"; VStr "b"]) (VStr "c")).
  - apply NoDup_ListNoDup. simpl. repeat constructor; simpl; intuition discriminate.
  - intros Hin. apply list_elem_of_In in Hin. simpl in Hin. intuition discriminate.
Defined.

(** ** The segment reorder: further properties *)

Section ReorderMore.
Context {A : Type} (undefined : A).
Implicit Types (l : list A) (x : A).

(** Taking an element out and putting it back somewhere: length,
    content, and what is at the insertion point. *)
Lemma reinsert_length l (s e : nat) x :
  l !! s = Some x → e < length l →
  length (take e (delete s l) ++ x :: drop e (delete s l)) = length l.
Proof.
  intros Hx He. pose proof (lookup_lt_Some _ _ _ Hx).
  rewrite length_app, length_take_le by (rewrite length_delete by eauto; lia).
  simpl. rewrite length_drop, length_delete by eauto. lia.
Qed.

Lemma reinsert_Permutation l (s e : nat) x :
  l !! s = Some x →
  take e (delete s l) ++ x :: drop e (delete s l) ≡ₚ l.
Proof.
  intros Hx. rewrite <- Permutation_middle, take_drop.
  symmetry. by apply delete_Permutation.
Qed.

Lemma reinsert_lookup l (s e : nat) x :
  l !! s = Some x → e < length l →
  (take e (delete s l) ++ x :: drop e (delete s l)) !! e = Some x.
Proof.
  intros Hx He. pose proof (lookup_lt_Some _ _ _ Hx).
  apply list_lookup_middle. rewrite length_take_le; [done|].
  rewrite length_delete by eauto. lia.
Qed.

Lemma reinsert_delete l (s e : nat) x :
  l !! s = Some x → e < length l →
  delete e (take e (delete s l) ++ x :: drop e (delete s l)) = delete s l.
Proof.
  intros Hx He. pose proof (lookup_lt_Some _ _ _ Hx).
  assert (Htake : length (take e (delete s l)) = e)
    by (rewrite length_take_le; [done|]; rewrite length_delete by eauto; lia).
  rewrite <- Htake at 1. rewrite delete_middle. apply take_drop.
Qed.

(** Valid indices as naturals. *)
Lemma valid_index l (i : Z) :
  (0 ≤ i < Z.of_nat (length l))%Z →
  ∃ (n : nat) x, i = Z.of_nat n ∧ l !! n = Some x ∧ n < length l.
Proof.
  intros Hi. assert (Hlt : Z.to_nat i < length l) by lia.
  destruct (lookup_lt_is_Some_2 l _ Hlt) as [x Hx].
  exists (Z.to_nat i), x. repeat split; [lia|done|done].
Qed.

(** X12. Dropping an item where it was picked up gives back the list. *)
Theorem reorder_same_index l (index : Z) :
  (0 ≤ index < Z.of_nat (length l))%Z →
  Schema.reorder undefined l index index = l.
Proof.
  intros Hi. destruct (valid_index l index Hi) as (i & x & -> & Hx & Hlt).
  rewrite (reorder_valid undefined l _ _ x Hx Hlt).
  rewrite !delete_take_drop.
  rewrite take_app_le, take_idemp by (rewrite length_take_le; lia).
  rewrite drop_app_length' by (rewrite length_take_le; lia).
  by apply take_drop_middle.
Qed.

(** X13. Moving an item from [startIndex] to [endIndex] and then on from
    [endIndex] to [nextIndex] is the same as moving it from [startIndex] to
    [nextIndex] directly. *)
Theorem reorder_composes l (startIndex endIndex nextIndex : Z) :
  (0 ≤ startIndex < Z.of_nat (length l))%Z →
  (0 ≤ endIndex < Z.of_nat (length l))%Z →
  (0 ≤ nextIndex < Z.of_nat (length l))%Z →
  Schema.reorder undefined (Schema.reorder undefined l startIndex endIndex)
                 endIndex nextIndex
  = Schema.reorder undefined l startIndex nextIndex.
Proof.
  intros Hs He Hn.
  destruct (valid_index l startIndex Hs) as (s & x & -> & Hx & Hslt).
  destruct (valid_index l endIndex He) as (e & _ & -> & _ & Helt).
  destruct (valid_index l nextIndex Hn) as (n & _ & -> & _ & Hnlt).
  rewrite (reorder_valid undefined l s e x Hx Helt).
  rewrite (reorder_valid undefined l s n x Hx Hnlt).
  rewrite (reorder_valid undefined _ e n x (reinsert_lookup l s e x Hx Helt))
    by (rewrite reinsert_length; done).
  by rewrite reinsert_delete.
Qed.

(** X14. Dragging an item away and back restores the list. *)
Theorem reorder_back_restores l (startIndex endIndex : Z) :
  (0 ≤ startIndex < Z.of_nat (length l))%Z →
  (0 ≤ endIndex < Z.of_nat (length l))%Z →
  Schema.reorder undefined (Schema.reorder undefined l startIndex endIndex)
                 endIndex startIndex
  = l.
Proof.
  intros Hs He.
  destruct (valid_index l startIndex Hs) as (s & x & -> & Hx & Hslt).
  destruct (valid_index l endIndex He) as (e & _ & -> & _ & Helt).
  rewrite (reorder_valid undefined l s e x Hx Helt).
  rewrite (reorder_valid undefined _ e s x (reinsert_lookup l s e x Hx Helt))
    by (rewrite reinsert_length; done).
  rewrite reinsert_delete by done.
  rewrite delete_take_drop.
  rewrite take_app_le, take_idemp by (rewrite length_take_le; lia).
  rewrite drop_app_length' by (rewrite length_take_le; lia).
  by apply take_drop_middle.
Qed.

(** X15. On the empty list there is nothing to take out: whatever the
    indices, the result is the one-element list holding [undefined]. *)
Theorem reorder_empty (startIndex endIndex : Z) :
  Schema.reorder undefined [] startIndex endIndex = [undefined].
Proof.
  unfold Schema.reorder, JsArray.splice.
  rewrite !drop_nil, !take_nil. simpl.
  by rewrite drop_nil, take_nil.
Qed.

(** X16. A start index at or past the end takes nothing out: the list keeps
    all its elements in order and an [undefined] is inserted, so the result
    is one element longer. *)
Theorem reorder_start_past_end l (startIndex endIndex : Z) :
  (Z.of_nat (length l) ≤ startIndex)%Z →
  ∃ k, k ≤ length l ∧
       Schema.reorder undefined l startIndex endIndex
       = take k l ++ undefined :: drop k l ∧
       length (Schema.reorder undefined l startIndex endIndex) = S (length l).
Proof.
  intros Hs.
  assert (Hfirst : JsArray.splice l startIndex 1 [] = ([], l)).
  { unfold JsArray.splice.
    assert (Hk : JsArray.relativeStart startIndex (length l) = length l).
    { unfold JsArray.relativeStart.
      destruct (Z.ltb_spec startIndex 0); [lia|]. lia. }
    rewrite Hk, Nat.sub_diag. simpl.
    rewrite Nat.add_0_r, drop_all, firstn_all. by rewrite app_nil_r. }
  unfold Schema.reorder. rewrite Hfirst. cbn [head default].
  unfold JsArray.splice.
  set (k := JsArray.relativeStart endIndex (length l)).
  assert (Hk : k ≤ length l).
  { subst k. unfold JsArray.relativeStart.
    destruct (Z.ltb_spec endIndex 0); lia. }
  exists k. split; [done|].
  replace (Z.to_nat (Z.min (Z.max 0 0) (Z.of_nat (length l - k)))) with 0 by lia.
  rewrite Nat.add_0_r. simpl. split; [done|].
  rewrite length_app, length_take_le by done. simpl. rewrite length_drop. lia.
Qed.

(** X17. A negative start index counts from the end of the list, and not
    further back than its first element. *)
Theorem reorder_negative_start l (startIndex endIndex : Z) :
  (startIndex < 0)%Z →
  Schema.reorder undefined l startIndex endIndex
  = Schema.reorder undefined l
      (Z.max (Z.of_nat (length l) + startIndex) 0) endIndex.
Proof.
  intros Hneg.
  assert (Hk : JsArray.relativeStart startIndex (length l)
               = JsArray.relativeStart
                   (Z.max (Z.of_nat (length l) + startIndex) 0) (length l)).
  { unfold JsArray.relativeStart.
    destruct (Z.ltb_spec startIndex 0); [|lia].
    destruct (Z.ltb_spec (Z.max (Z.of_nat (length l) + startIndex) 0) 0); lia. }
  assert (Hfirst : JsArray.splice l startIndex 1 []
                   = JsArray.splice l
                       (Z.max (Z.of_nat (length l) + startIndex) 0) 1 [])
    by (unfold JsArray.splice; by rewrite Hk).
  unfold Schema.reorder. by rewrite Hfirst.
Qed.

(** X18. An end index at or past the last position puts the item at the end
    of the list. *)
Theorem reorder_end_past_last l (startIndex endIndex : Z) :
  (0 ≤ startIndex < Z.of_nat (length l))%Z →
  (Z.of_nat (length l) - 1 ≤ endIndex)%Z →
  ∃ x, l !! Z.to_nat startIndex = Some x ∧
       Schema.reorder undefined l startIndex endIndex
       = delete (Z.to_nat startIndex) l ++ [x].
Proof.
  intros Hs He.
  destruct (valid_index l startIndex Hs) as (s & x & -> & Hx & Hslt).
  rewrite Nat2Z.id. exists x. split; [done|].
  unfold Schema.reorder. rewrite (splice_remove_one _ _ _ Hx). cbn [head default].
  unfold JsArray.splice.
  assert (Hlen : length (delete s l) = length l - 1)
    by (apply length_delete; eauto).
  assert (Hk : JsArray.relativeStart endIndex (length (delete s l))
               = length (delete s l)).
  { unfold JsArray.relativeStart. destruct (Z.ltb_spec endIndex 0); lia. }
  rewrite Hk, Nat.sub_diag. simpl.
  by rewrite Nat.add_0_r, drop_all, firstn_all.
Qed.

End ReorderMore.

Lemma reorder_same_index_witness :
  Schema.reorder ""%string ["a"; "b"; "c"]%string 1 1 = ["a"; "b"; "c"]%string.
Proof. apply (reorder_same_index ""%string ["a"; "b"; "c"]%string 1). simpl. lia. Defined.

Lemma reorder_composes_witness :
  Schema.reorder ""%string
    (Schema.reorder ""%string ["a"; "b"; "c"; "d"]%string 0 2) 2 3
  = Schema.reorder ""%string ["a"; "b"; "c"; "d"]%string 0 3.
Proof.
  apply (reorder_composes ""%string ["a"; "b"; "c"; "d"]%string 0 2 3);
    simpl; lia.
Defined.

Lemma reorder_back_restores_witness :
  Schema.reorder ""%string
    (Schema.reorder ""%string ["a"; "b"; "c"; "d"]%string 3 1) 1 3
  = ["a"; "b"; "c"; "d"]%string.
Proof.
  apply (reorder_back_restores ""%string ["a"; "b"; "c"; "d"]%string 3 1);
    simpl; lia.
Defined.

Lemma reorder_start_past_end_witness :
  ∃ k, k ≤ length ["a"; "b"]%string ∧
       Schema.reorder "undefined"%string ["a"; "b"]%string 2 1
       = take k ["a"; "b"]%string ++ "undefined"%string :: drop k ["a"; "b"]%string ∧
       length (Schema.reorder "undefined"%string ["a"; "b"]%string 2 1)
       = S (length ["a"; "b"]%string).
Proof.
  apply (reorder_start_past_end "undefined"%string ["a"; "b"]%string 2 1).
  simpl. lia.
Defined.

Lemma reorder_negative_start_witness :
  Schema.reorder ""%string ["a"; "b"; "c"]%string (-1) 0
  = Schema.reorder ""%string ["a"; "b"; "c"]%string
      (Z.max (Z.of_nat (length ["a"; "b"; "c"]%string) + -1) 0) 0.
Proof.
  apply (reorder_negative_start ""%string ["a"; "b"; "c"]%string (-1) 0). lia.
Defined.

(** The last item, addressed as [-1], moved to the front. *)
Example reorder_negative_start_example :
  Schema.reorder ""%string ["a"; "b"; "c"]%string (-1) 0 = ["c"; "a"; "b"]%string.
Proof. reflexivity. Qed.

Lemma reorder_end_past_last_witness :
  ∃ x, ["a"; "b"; "c"]%string !! Z.to_nat 0 = Some x ∧
       Schema.reorder ""%string ["a"; "b"; "c"]%string 0 7
       = delete (Z.to_nat 0) ["a"; "b"; "c"]%string ++ [x].
Proof.
  apply (reorder_end_past_last ""%string ["a"; "b"; "c"]%string 0 7); simpl; lia.
Defined.

(** ** The schema editor component *)

Section SchemaEditorFacts.
Implicit Types (props : SchemaEditor.Props) (state : SchemaEditor.ViewState)
               (result : SchemaEditor.DropResult) (event : SchemaEditor.Event)
               (segments : list Obj).

(** Moving an object of an array of objects within the array leaves an array
    of objects: the re-render goes through. *)
Lemma setSegArray_reorder_valid segments (s e : nat) y :
  segments !! s = Some y →
  e < length segments →
  SchemaEditor.setSegArray
    (Schema.reorder SchemaEditor.Undefined (SchemaEditor.Object <$> segments)
       (Z.of_nat s) (Z.of_nat e))
  = Some (take e (delete s segments) ++ y :: drop e (delete s segments)).
Proof.
  intros Hy He.
  rewrite (reorder_valid _ _ s e (SchemaEditor.Object y))
    by (by rewrite ?list_lookup_fmap, ?Hy, ?length_fmap).
  assert (Hdelete : delete s (SchemaEditor.Object <$> segments)
                    = SchemaEditor.Object <$> delete s segments)
    by (by rewrite !delete_take_drop, fmap_app, fmap_take, fmap_drop).
  rewrite Hdelete, <- fmap_take, <- fmap_drop.
  change (SchemaEditor.Object y :: (SchemaEditor.Object <$> ?l))
    with (SchemaEditor.Object <$> y :: l).
  rewrite <- fmap_app.
  unfold SchemaEditor.setSegArray. by apply mapM_fmap_Some.
Qed.

(** A source index at or past the end makes [reorder] insert [undefined],
    and the re-render throws. *)
Lemma setSegArray_reorder_outside segments (source destination : Z) :
  (Z.of_nat (length segments) ≤ source)%Z →
  SchemaEditor.setSegArray
    (Schema.reorder SchemaEditor.Undefined (SchemaEditor.Object <$> segments)
       source destination)
  = None.
Proof.
  intros Hs. set (l := SchemaEditor.Object <$> segments).
  assert (Hlen : (Z.of_nat (length l) ≤ source)%Z)
    by (subst l; by rewrite length_fmap).
  assert (Hfirst : JsArray.splice l source 1 [] = ([], l)).
  { unfold JsArray.splice.
    assert (Hk : JsArray.relativeStart source (length l) = length l).
    { unfold JsArray.relativeStart. destruct (Z.ltb_spec source 0); lia. }
    rewrite Hk, Nat.sub_diag. simpl.
    rewrite Nat.add_0_r, drop_all, firstn_all. by rewrite app_nil_r. }
  unfold Schema.reorder. rewrite Hfirst. cbn [head default].
  unfold JsArray.splice, SchemaEditor.setSegArray.
  apply mapM_None_2, Exists_exists.
  exists SchemaEditor.Undefined. split; [|done].
  apply elem_of_app. right. apply elem_of_app. left. by left.
Qed.

(** X19. [onDragEnd] does nothing at all (no state change, no save) when the
    user may not modify the OTU, when the reference is remote, or when the
    item was dropped outside the list. *)
Theorem onDragEnd_ignored props state result :
  SchemaEditor.hasModifyOTU props = false ∨
  SchemaEditor.isRemote props = true ∨
  SchemaEditor.destination_index result = None →
  SchemaEditor.onDragEnd props state result = Some (state, []).
Proof.
  unfold SchemaEditor.onDragEnd.
  intros [-> | [-> | ->]]; simpl; [done| |].
  - by rewrite orb_true_r.
  - by destruct (negb _ || _).
Qed.

(** X20. An accepted drop within the list stores the reordered segments,
    which are the old segments in a new order, and saves exactly that list
    once, under the OTU's id, name and abbreviation; the modal flags and the
    selected segment are not touched. *)
Theorem onDragEnd_accepted props state source destination :
  SchemaEditor.hasModifyOTU props = true →
  SchemaEditor.isRemote props = false →
  (0 ≤ source < Z.of_nat (length (SchemaEditor.segArray state)))%Z →
  (0 ≤ destination < Z.of_nat (length (SchemaEditor.segArray state)))%Z →
  ∃ state',
    SchemaEditor.onDragEnd props state
      {| SchemaEditor.source_index := source;
         SchemaEditor.destination_index := Some destination |}
    = Some (state',
            [ {| SchemaEditor.save_otuId := SchemaEditor.otuId props;
                 SchemaEditor.save_name := SchemaEditor.detail_name props;
                 SchemaEditor.save_abbreviation := SchemaEditor.detail_abbreviation props;
                 SchemaEditor.save_schema := SchemaEditor.segArray state' |} ]) ∧
    SchemaEditor.segArray state' ≡ₚ SchemaEditor.segArray state ∧
    SchemaEditor.showAdd state' = SchemaEditor.showAdd state ∧
    SchemaEditor.showRemove state' = SchemaEditor.showRemove state ∧
    SchemaEditor.showEdit state' = SchemaEditor.showEdit state ∧
    SchemaEditor.selected state' = SchemaEditor.selected state.
Proof.
  intros Hmod Hremote Hs Hd.
  destruct (valid_index _ source Hs) as (s & y & -> & Hy & Hslt).
  destruct (valid_index _ destination Hd) as (e & _ & -> & _ & Helt).
  unfold SchemaEditor.onDragEnd. rewrite Hmod, Hremote.
  cbn [negb orb SchemaEditor.destination_index SchemaEditor.source_index].
  rewrite (setSegArray_reorder_valid _ s e y Hy Helt).
  eexists (SchemaEditor.Build_ViewState _ _ _ _ _).
  split; [reflexivity|].
  cbn [SchemaEditor.segArray SchemaEditor.showAdd SchemaEditor.showRemove
       SchemaEditor.showEdit SchemaEditor.selected].
  split; [|done]. by apply reinsert_Permutation.
Qed.

(** A drop whose source index is at or past the end of the list ends in the
    exception of the re-render; nothing is saved. *)
Lemma onDragEnd_source_outside_throws props state source destination :
  SchemaEditor.hasModifyOTU props = true →
  SchemaEditor.isRemote props = false →
  (Z.of_nat (length (SchemaEditor.segArray state)) ≤ source)%Z →
  SchemaEditor.onDragEnd props state
    {| SchemaEditor.source_index := source;
       SchemaEditor.destination_index := Some destination |}
  = None.
Proof.
  intros Hmod Hremote Hs.
  unfold SchemaEditor.onDragEnd. rewrite Hmod, Hremote.
  cbn [negb orb SchemaEditor.destination_index SchemaEditor.source_index].
  by rewrite setSegArray_reorder_outside.
Qed.

(** What one callback that returns does to the segment list and which saves
    it makes. *)
Lemma handle_sync props state event state' saves :
  SchemaEditor.handle props state event = Some (state', saves) →
  (saves = [] ∧ SchemaEditor.segArray state' = SchemaEditor.segArray state) ∨
  saves = [SchemaEditor.onSave props (SchemaEditor.segArray state')].
Proof.
  destruct event as [result| |newArray| |entry]; simpl.
  - unfold SchemaEditor.onDragEnd.
    destruct (negb _ || _); [intros [= <- <-]; by left|].
    destruct (SchemaEditor.destination_index result);
      [|intros [= <- <-]; by left].
    destruct (SchemaEditor.setSegArray _); [|done].
    intros [= <- <-]. by right.
  - intros [= <- <-]. by left.
  - intros [= <- <-]. by right.
  - intros [= <- <-]. by left.
  - intros [= <- <-]. left. split; [done|].
    by destruct (decide _), (decide _).
Qed.

(** X21. After any sequence of callbacks that ends without an exception,
    the segment list of the component is the list passed to the last
    [onSave] call, or the list it started with if nothing was saved; and
    every [onSave] call carries the id, name and abbreviation of the
    props. *)
Theorem run_saved_schema_in_sync props state events final saves :
  SchemaEditor.run props state events = Some (final, saves) →
  SchemaEditor.segArray final
  = match last saves with
    | Some call => SchemaEditor.save_schema call
    | None => SchemaEditor.segArray state
    end ∧
  Forall (λ call,
            SchemaEditor.save_otuId call = SchemaEditor.otuId props ∧
            SchemaEditor.save_name call = SchemaEditor.detail_name props ∧
            SchemaEditor.save_abbreviation call = SchemaEditor.detail_abbreviation props)
         saves.
Proof.
  revert state final saves.
  induction events as [|event rest IH]; intros state final saves; simpl.
  - intros [= <- <-]. split; [done|constructor].
  - destruct (SchemaEditor.handle props state event) as [[state' saves1]|] eqn:Hstep;
      [|done].
    destruct (SchemaEditor.run props state' rest) as [[final' saves2]|] eqn:Hrest;
      [|done].
    intros [= <- <-].
    destruct (IH _ _ _ Hrest) as [IHseg IHall].
    destruct (handle_sync _ _ _ _ _ Hstep) as [[-> Hsame] | ->]; simpl.
    + split; [|done]. rewrite IHseg. by rewrite Hsame.
    + split; [|by constructor].
      rewrite IHseg. destruct saves2 as [|call' saves2] using rev_ind.
      * done.
      * rewrite last_snoc, app_comm_cons, last_snoc. done.
Qed.

(** X22. A click whose handler is neither "remove" nor "edit" changes
    nothing. *)
Theorem handleSegment_other_handler props state entry :
  SchemaEditor.handler entry ≠ "remove" →
  SchemaEditor.handler entry ≠ "edit" →
  SchemaEditor.handleSegment props state entry = (state, []).
Proof.
  intros Hr He. unfold SchemaEditor.handleSegment.
  by rewrite !decide_False.
Qed.

(** X23. Drops within the list never lose or duplicate a segment: any
    sequence of [onDragEnd] calls whose indices are within the list runs to
    its end, and the segments are then the original ones in some order. *)
Theorem drags_keep_segments props state results :
  Forall (λ result,
            (0 ≤ SchemaEditor.source_index result
               < Z.of_nat (length (SchemaEditor.segArray state)))%Z ∧
            ∀ destination,
              SchemaEditor.destination_index result = Some destination →
              (0 ≤ destination < Z.of_nat (length (SchemaEditor.segArray state)))%Z)
         results →
  ∃ final saves,
    SchemaEditor.run props state (SchemaEditor.DragEnd <$> results)
    = Some (final, saves) ∧
    SchemaEditor.segArray final ≡ₚ SchemaEditor.segArray state.
Proof.
  intros Hall. revert state Hall.
  induction results as [|result rest IH]; intros state Hall.
  { exists state, []. by split. }
  apply Forall_cons in Hall as [[Hs Hd] Hall].
  assert (Hstep : ∃ state' saves,
             SchemaEditor.onDragEnd props state result = Some (state', saves) ∧
             SchemaEditor.segArray state' ≡ₚ SchemaEditor.segArray state).
  { unfold SchemaEditor.onDragEnd.
    destruct (negb _ || _); [by exists state, []|].
    destruct (SchemaEditor.destination_index result) as [d|];
      [|by exists state, []].
    specialize (Hd d eq_refl).
    destruct (valid_index _ _ Hs) as (s & y & Hseq & Hy & Hslt).
    destruct (valid_index _ _ Hd) as (e & _ & -> & _ & Helt).
    rewrite Hseq, (setSegArray_reorder_valid _ s e y Hy Helt).
    eexists (SchemaEditor.Build_ViewState _ _ _ _ _), _.
    split; [reflexivity|]. by apply reinsert_Permutation. }
  destruct Hstep as (state' & saves & Hstep & Hperm).
  destruct (IH state') as (final & saves' & Hrun & Hfinal).
  { by rewrite (Permutation_length Hperm). }
  exists final, (saves ++ saves'). split; [|by rewrite Hfinal].
  rewrite fmap_cons. cbn [SchemaEditor.run SchemaEditor.handle].
  by rewrite Hstep, Hrun.
Qed.

(** X24. [getItemStyle] lets the style it is given win: a property set by
    [draggableStyle] keeps that value, [userSelect] and [margin] included;
    the two defaults apply to the properties [draggableStyle] leaves out; and
    [isDragging] makes no difference. *)
Theorem getItemStyle_override isDragging draggableStyle k :
  SchemaEditor.getItemStyle isDragging (Some draggableStyle) !! k
  = match draggableStyle !! k with
    | Some v => Some v
    | None =>
        ({[ "userSelect" := VStr "none"; "margin" := VStr "0 0 10px 0" ]} : Obj) !! k
    end.
Proof.
  unfold SchemaEditor.getItemStyle, spread, spreadNullable.
  cbn [default].
  destruct (draggableStyle !! k) as [v|] eqn:Hk.
  - by apply lookup_union_Some_l.
  - by rewrite lookup_union_r.
Qed.

End SchemaEditorFacts.

Lemma onDragEnd_ignored_witness :
  let props := {| SchemaEditor.schema := None;
                  SchemaEditor.hasModifyOTU := true;
                  SchemaEditor.isRemote := true;
                  SchemaEditor.otuId := VStr "otu";
                  SchemaEditor.detail_name := VStr "Virus";
                  SchemaEditor.detail_abbreviation := VStr "V" |} in
  let state := SchemaEditor.getInitialState props in
  let result := {| SchemaEditor.source_index := 0;
                   SchemaEditor.destination_index := Some 1%Z |} in
  SchemaEditor.onDragEnd props state result = Some (state, []).
Proof.
  intros props state result.
  apply (onDragEnd_ignored props state result). right. left. reflexivity.
Defined.

Lemma onDragEnd_accepted_witness :
  let props := {| SchemaEditor.schema :=
                    Some [ {[ "name" := VStr "RNA A" ]};
                           {[ "name" := VStr "RNA B" ]} ];
                  SchemaEditor.hasModifyOTU := true;
                  SchemaEditor.isRemote := false;
                  SchemaEditor.otuId := VStr "otu";
                  SchemaEditor.detail_name := VStr "Virus";
                  SchemaEditor.detail_abbreviation := VStr "V" |} in
  let state := SchemaEditor.getInitialState props in
  ∃ state',
    SchemaEditor.onDragEnd props state
      {| SchemaEditor.source_index := 0;
         SchemaEditor.destination_index := Some 1%Z |}
    = Some (state',
            [ {| SchemaEditor.save_otuId := SchemaEditor.otuId props;
                 SchemaEditor.save_name := SchemaEditor.detail_name props;
                 SchemaEditor.save_abbreviation := SchemaEditor.detail_abbreviation props;
                 SchemaEditor.save_schema := SchemaEditor.segArray state' |} ]) ∧
    SchemaEditor.segArray state' ≡ₚ SchemaEditor.segArray state ∧
    SchemaEditor.showAdd state' = SchemaEditor.showAdd state ∧
    SchemaEditor.showRemove state' = SchemaEditor.showRemove state ∧
    SchemaEditor.showEdit state' = SchemaEditor.showEdit state ∧
    SchemaEditor.selected state' = SchemaEditor.selected state.
Proof.
  intros props state.
  apply (onDragEnd_accepted props state 0 1); [reflexivity|reflexivity| |];
    simpl; lia.
Defined.

Lemma run_saved_schema_in_sync_witness :
  let a : Obj := {[ "name" := VStr "RNA A" ]} in
  let b : Obj := {[ "name" := VStr "RNA B" ]} in
  let props := {| SchemaEditor.schema := Some [a; b];
                  SchemaEditor.hasModifyOTU := true;
                  SchemaEditor.isRemote := false;
                  SchemaEditor.otuId := VStr "otu";
                  SchemaEditor.detail_name := VStr "Virus";
                  SchemaEditor.detail_abbreviation := VStr "V" |} in
  let final := {| SchemaEditor.segArray := [b];
                  SchemaEditor.showAdd := false;
                  SchemaEditor.showRemove := false;
                  SchemaEditor.showEdit := false;
                  SchemaEditor.selected := a |} in
  let saves := [SchemaEditor.onSave props [b; a]; SchemaEditor.onSave props [b]] in
  SchemaEditor.segArray final
  = match last saves with
    | Some call => SchemaEditor.save_schema call
    | None => SchemaEditor.segArray (SchemaEditor.getInitialState props)
    end ∧
  Forall (λ call,
            SchemaEditor.save_otuId call = SchemaEditor.otuId props ∧
            SchemaEditor.save_name call = SchemaEditor.detail_name props ∧
            SchemaEditor.save_abbreviation call = SchemaEditor.detail_abbreviation props)
         saves.
Proof.
  intros a b props final saves.
  apply (run_saved_schema_in_sync props (SchemaEditor.getInitialState props)
           [ SchemaEditor.DragEnd {| SchemaEditor.source_index := 0;
                                     SchemaEditor.destination_index := Some 1%Z |};
             SchemaEditor.SegmentClick {| SchemaEditor.handler := "edit";
                                          SchemaEditor.segment := a |};
             SchemaEditor.Submit [b] ]
           final saves).
  reflexivity.
Defined.

Lemma handleSegment_other_handler_witness :
  let props := {| SchemaEditor.schema := None;
                  SchemaEditor.hasModifyOTU := true;
                  SchemaEditor.isRemote := false;
                  SchemaEditor.otuId := VStr "otu";
                  SchemaEditor.detail_name := VStr "Virus";
                  SchemaEditor.detail_abbreviation := VStr "V" |} in
  let state := SchemaEditor.getInitialState props in
  let entry := {| SchemaEditor.handler := "view";
                  SchemaEditor.segment := {[ "name" := VStr "RNA A" ]} |} in
  SchemaEditor.handleSegment props state entry = (state, []).
Proof.
  intros props state entry.
  apply (handleSegment_other_handler props state entry); simpl; discriminate.
Defined.

Lemma drags_keep_segments_witness :
  let props := {| SchemaEditor.schema :=
                    Some [ {[ "name" := VStr "RNA A" ]};
                           {[ "name" := VStr "RNA B" ]};
                           {[ "name" := VStr "RNA C" ]} ];
                  SchemaEditor.hasModifyOTU := true;
                  SchemaEditor.isRemote := false;
                  SchemaEditor.otuId := VStr "otu";
                  SchemaEditor.detail_name := VStr "Virus";
                  SchemaEditor.detail_abbreviation := VStr "V" |} in
  let state := SchemaEditor.getInitialState props in
  let results := [ {| SchemaEditor.source_index := 0;
                      SchemaEditor.destination_index := Some 2%Z |};
                   {| SchemaEditor.source_index := 1;
                      SchemaEditor.destination_index := None |};
                   {| SchemaEditor.source_index := 2;
                      SchemaEditor.destination_index := Some 1%Z |} ] in
  ∃ final saves,
    SchemaEditor.run props state (SchemaEditor.DragEnd <$> results)
    = Some (final, saves) ∧
    SchemaEditor.segArray final ≡ₚ SchemaEditor.segArray state.
Proof.
  intros props state results.
  apply (drags_keep_segments props state results).
  repeat (constructor;
          [split; [simpl; lia|intros d Hd; simpl in Hd; simplify_eq; simpl; lia]|]).
  constructor.
Defined.

(** A run of the component: a drop, a click on "edit", a submit from the
    modal. The two saves are the two lists the component held in turn. *)
Example run_example :
  let a : Obj := {[ "name" := VStr "RNA A" ]} in
  let b : Obj := {[ "name" := VStr "RNA B" ]} in
  let props := {| SchemaEditor.schema := Some [a; b];
                  SchemaEditor.hasModifyOTU := true;
                  SchemaEditor.isRemote := false;
                  SchemaEditor.otuId := VStr "otu";
                  SchemaEditor.detail_name := VStr "Virus";
                  SchemaEditor.detail_abbreviation := VStr "V" |} in
  SchemaEditor.run props (SchemaEditor.getInitialState props)
    [ SchemaEditor.DragEnd {| SchemaEditor.source_index := 0;
                              SchemaEditor.destination_index := Some 1%Z |};
      SchemaEditor.SegmentClick {| SchemaEditor.handler := "edit";
                                   SchemaEditor.segment := a |};
      SchemaEditor.Submit [b] ]
  = Some ({| SchemaEditor.segArray := [b];
             SchemaEditor.showAdd := false;
             SchemaEditor.showRemove := false;
             SchemaEditor.showEdit := false;
             SchemaEditor.selected := a |},
          [SchemaEditor.onSave props [b; a]; SchemaEditor.onSave props [b]]).
Proof. reflexivity. Qed.

(** A drop that names a source index outside the list: [reorder] inserts
    [undefined], the re-render throws, and [onSave] is not called. *)
Example run_source_outside :
  let a : Obj := {[ "name" := VStr "RNA A" ]} in
  let props := {| SchemaEditor.schema := Some [a];
                  SchemaEditor.hasModifyOTU := true;
                  SchemaEditor.isRemote := false;
                  SchemaEditor.otuId := VStr "otu";
                  SchemaEditor.detail_name := VStr "Virus";
                  SchemaEditor.detail_abbreviation := VStr "V" |} in
  SchemaEditor.run props (SchemaEditor.getInitialState props)
    [ SchemaEditor.DragEnd {| SchemaEditor.source_index := 3;
                              SchemaEditor.destination_index := Some 0%Z |} ]
  = None.
Proof. reflexivity. Qed.

(** ** The samples reducer: a repeated update *)

(** X25. A partial-update success that arrives twice with the same payload
    (as either kind) leaves the state the first one left. *)
Theorem update_succeeded_idempotent (state : State) rights1 rights2 (data : Obj) :
  samplesReducer (samplesReducer state (updateSucceeded rights1 data))
                 (updateSucceeded rights2 data)
  = samplesReducer state (updateSucceeded rights1 data).
Proof.
  assert (Hone : ∀ r s d,
             samplesReducer s (updateSucceeded r d)
             = set_detail s (Some (spread (spreadNullable (detail s)) d)))
    by (intros [] s d; reflexivity).
  rewrite !Hone. unfold set_detail, spread; simpl.
  by rewrite (assoc_L (∪)), (idemp_L (∪)).
Qed.
